(** * Gradebook: grade aggregation and evaluation validation

    A shallow embedding of the aggregation code of [GradeTable.tsx],
    [ReportsView.tsx] and [SubjectView.tsx] (and of the two earlier variants
    of the table and of the subject view), of the store of [App.tsx] and of
    the import of students, with properties of this code.

    Numbers.  The code is embedded twice.

    The first part reads a JavaScript [number] as an exact rational [Q],
    compared with [Qeq] ([==]); a division whose divisor is not a constant is
    [JS.div], which returns [None] where JavaScript would produce [NaN] or an
    infinity.  This reading leaves the rounding of binary64 out; the
    properties stated on it are about the structure of the code: which
    checks reject and what is stored then, how scores are looked up, counted
    and ordered, the layout of the texts, the store.

    The part [B64] reads a [number] as what it is at run time, a binary64
    value with the rounding of IEEE 754.  Whatever is said about the value
    of a sum, of a grade or of a budget check is said there. *)

From Stdlib Require Import List String Ascii ZArith QArith Qround Bool Lia Lqa.
From Stdlib Require Import Permutation Sorted DecimalString.
From Stdlib Require Import PrimFloat FloatOps SpecFloat.
Import ListNotations.

Local Open Scope Q_scope.

(** ** JavaScript helpers *)

Module JS.

(** [x / y] with a divisor that may be zero. *)
Definition div (x y : Q) : option Q :=
  if Qeq_bool y 0 then None else Some (x / y).

(** The characters written with an escape in the sources. *)
Definition quote : string := String (ascii_of_nat 34) EmptyString.
Definition newline : string := String (ascii_of_nat 10) EmptyString.

(** [a < b] *)
Definition ltb (a b : Q) : bool := negb (Qle_bool b a).

(** [a || b] on numbers. *)
Definition or_else (a b : Q) : Q := if Qeq_bool a 0 then b else a.

Section Sort.
Context {A : Type}.
Variable cmp : A -> A -> Q.

(** [Array.prototype.sort(cmp)] is stable: an element stays in front of
    the later elements it compares equal to. *)
Fixpoint insert (x : A) (l : list A) : list A :=
  match l with
  | [] => [x]
  | y :: ys => if Qle_bool (cmp x y) 0 then x :: y :: ys else y :: insert x ys
  end.

Fixpoint sort (l : list A) : list A :=
  match l with
  | [] => []
  | x :: xs => insert x (sort xs)
  end.
End Sort.

(** [arr.reduce(f, init)]. *)
Definition reduce {A B : Type} (f : B -> A -> B) (init : B) (arr : list A) : B :=
  fold_left f arr init.

(** The integer [n] with [n / 100] closest to [x], the larger one on a tie
    ([x] non-negative). *)
Definition hundredths (x : Q) : Z := Qfloor (x * 100 + (1 # 2)).

Definition digits (n : Z) : string := NilZero.string_of_uint (N.to_uint (Z.to_N n)).

Definition two_digits (n : Z) : string :=
  if (n <? 10)%Z then ("0" ++ digits n)%string else digits n.

(** [x.toFixed(2)] (for magnitudes below 1e21). *)
Definition toFixed2 (x : Q) : string :=
  let (sign, m) := if ltb x 0 then ("-"%string, - x) else (EmptyString, x) in
  let n := hundredths m in
  (sign ++ digits (n / 100) ++ "." ++ two_digits (n mod 100))%string.

(** [parseFloat(x.toFixed(2))]. *)
Definition round2 (x : Q) : Q :=
  if ltb x 0 then - (inject_Z (hundredths (- x)) / 100)
  else inject_Z (hundredths x) / 100.

(** [Math.max(...xs)] and [Math.min(...xs)]; [None] stands for the
    infinities JavaScript returns on no argument. *)
Definition Qmax (a b : Q) : Q := if ltb a b then b else a.
Definition Qmin (a b : Q) : Q := if ltb b a then b else a.

Definition Math_max (xs : list Q) : option Q :=
  match xs with [] => None | x :: rest => Some (fold_left Qmax rest x) end.
Definition Math_min (xs : list Q) : option Q :=
  match xs with [] => None | x :: rest => Some (fold_left Qmin rest x) end.

End JS.

(** ** Data model ([types.ts]) *)

Inductive Corte : Type := Corte1 | Corte2 | Corte3.

Definition corte_eqb (a b : Corte) : bool :=
  match a, b with
  | Corte1, Corte1 | Corte2, Corte2 | Corte3, Corte3 => true
  | _, _ => false
  end.

Definition corte_number (c : Corte) : Z :=
  match c with Corte1 => 1 | Corte2 => 2 | Corte3 => 3 end.

Record Student : Type := mkStudent {
  student_id : string;
  student_name : string;
  student_email : string }.

Record Evaluation : Type := mkEvaluation {
  ev_id : string;
  ev_subjectId : string;
  ev_corte : Corte;
  ev_name : string;
  ev_percentage : Q }.

Record Grade : Type := mkGrade {
  g_studentId : string;
  g_evaluationId : string;
  g_score : option Q }.

(** The object [{ 1: [], 2: [], 3: [] }] keyed by corte. *)
Record ByCorte : Type := mkByCorte {
  bc1 : list Evaluation;
  bc2 : list Evaluation;
  bc3 : list Evaluation }.

Definition bc_get (cortes : ByCorte) (c : Corte) : list Evaluation :=
  match c with Corte1 => bc1 cortes | Corte2 => bc2 cortes | Corte3 => bc3 cortes end.

(** [cortes[ev.corte].push(ev)] *)
Definition bc_push (cortes : ByCorte) (ev : Evaluation) : ByCorte :=
  match ev_corte ev with
  | Corte1 => mkByCorte (bc1 cortes ++ [ev]) (bc2 cortes) (bc3 cortes)
  | Corte2 => mkByCorte (bc1 cortes) (bc2 cortes ++ [ev]) (bc3 cortes)
  | Corte3 => mkByCorte (bc1 cortes) (bc2 cortes) (bc3 cortes ++ [ev])
  end.

Definition bc_map (f : list Evaluation -> list Evaluation) (cortes : ByCorte) : ByCorte :=
  mkByCorte (f (bc1 cortes)) (f (bc2 cortes)) (f (bc3 cortes)).

Definition bc_empty : ByCorte := mkByCorte [] [] [].

(** [grade?.score ?? 0] *)
Definition score_or_zero (grade : option Grade) : Q :=
  match grade with
  | Some g => match g_score g with Some s => s | None => 0 end
  | None => 0
  end.

(** [getGrade], declared with this body by the table, the subject view and
    the reports view, each over its [grades] prop. *)
Definition getGrade (grades : list Grade) (studentId evaluationId : string)
  : option Grade :=
  find (fun g => String.eqb (g_studentId g) studentId
                 && String.eqb (g_evaluationId g) evaluationId) grades.

(** Errors of the option monad: a non-finite intermediate result. *)
Notation "x <- e ;; k" := (match e with Some x => k | None => None end)
  (at level 61, e at next level, right associativity).

(** ** The grade table ([GradeTable.tsx], both variants) *)

Section GradeTable.

(** [String.prototype.localeCompare] depends on the host's collation. *)
Variable localeCompare : string -> string -> Z.

Variable evaluations : list Evaluation.
Variable grades : list Grade.

Definition by_name (a b : Evaluation) : Q :=
  inject_Z (localeCompare (ev_name a) (ev_name b)).

Definition evaluationsByCorte : ByCorte :=
  let cortes := fold_left bc_push evaluations bc_empty in
  bc_map (JS.sort by_name) cortes.

(** [calculateCorteTotal] of [GradeTable.tsx]. *)
Definition calculateCorteTotal (studentId : string) (corte : Corte) : Q :=
  let corteEvals := bc_get evaluationsByCorte corte in
  if Nat.eqb (List.length corteEvals) 0 then 0
  else JS.reduce (fun total ev =>
                    let grade := getGrade grades studentId (ev_id ev) in
                    let score := score_or_zero grade in
                    total + score * (ev_percentage ev / 100))
                 0 corteEvals.

(** [calculateWeightedCorteSum] of the later table: the same body. *)
Definition calculateWeightedCorteSum (studentId : string) (corte : Corte) : Q :=
  let corteEvals := bc_get evaluationsByCorte corte in
  if Nat.eqb (List.length corteEvals) 0 then 0
  else JS.reduce (fun total ev =>
                    let grade := getGrade grades studentId (ev_id ev) in
                    let score := score_or_zero grade in
                    total + score * (ev_percentage ev / 100))
                 0 corteEvals.

Definition calculateNormalizedCorteGrade (studentId : string) (corte : Corte)
  : option Q :=
  let corteEvals := bc_get evaluationsByCorte corte in
  if Nat.eqb (List.length corteEvals) 0 then Some 0
  else
    let weightedSum := calculateWeightedCorteSum studentId corte in
    let totalPercentageInCorte :=
      JS.reduce (fun total ev => total + ev_percentage ev) 0 corteEvals in
    if Qeq_bool totalPercentageInCorte 0 then Some 0
    else JS.div weightedSum (totalPercentageInCorte / 100).

(** The final grade of a table row. *)
Definition finalGrade (studentId : string) : Q :=
  let totalCorte1 := calculateCorteTotal studentId Corte1 in
  let totalCorte2 := calculateCorteTotal studentId Corte2 in
  let totalCorte3 := calculateCorteTotal studentId Corte3 in
  totalCorte1 + totalCorte2 + totalCorte3.

End GradeTable.

(** ** The reports view ([ReportsView.tsx]) *)

Record NamedScore : Type := mkNamedScore {
  ns_name : string;
  ns_score : Q }.

Record Stats : Type := mkStats {
  average : Q;
  highest : Q;
  lowest : Q;
  passed : Z;
  failed : Z;
  passRate : Q;
  distribution : list Z;
  approvedStudents : list NamedScore;
  failedStudents : list NamedScore }.

(** [distribution[i]++] for an index inside the array. *)
Fixpoint increment (i : nat) (distribution : list Z) : list Z :=
  match distribution, i with
  | [], _ => []
  | n :: rest, O => (n + 1)%Z :: rest
  | n :: rest, S j => n :: increment j rest
  end.

(** The index chosen by the chain of comparisons in the [forEach]. *)
Definition bucket (score : Q) : nat :=
  if JS.ltb score 4 then 0%nat
  else if JS.ltb score 8 then 1%nat
  else if JS.ltb score 12 then 2%nat
  else if JS.ltb score 16 then 3%nat
  else 4%nat.

Definition by_score_desc (a b : NamedScore) : Q := ns_score b - ns_score a.

Definition calculateStats (studentScores : list NamedScore) (passingGrade : Q)
  : option Stats :=
  if Nat.eqb (List.length studentScores) 0 then
    Some (mkStats 0 0 0 0 0 0 [0; 0; 0; 0; 0]%Z [] [])
  else
    let scores := map ns_score studentScores in
    let len := inject_Z (Z.of_nat (List.length scores)) in
    average <- JS.div (JS.reduce (fun a b => a + b) 0 scores) len ;;
    highest <- JS.Math_max scores ;;
    lowest <- JS.Math_min scores ;;
    let passed :=
      Z.of_nat (List.length (filter (fun s => Qle_bool passingGrade s) scores)) in
    let failed := (Z.of_nat (List.length scores) - passed)%Z in
    ratio <- JS.div (inject_Z passed) len ;;
    let passRate := ratio * 100 in
    let distribution :=
      fold_left (fun distribution score => increment (bucket score) distribution)
                scores [0; 0; 0; 0; 0]%Z in
    let approvedStudents :=
      JS.sort by_score_desc
              (filter (fun s => Qle_bool passingGrade (ns_score s)) studentScores) in
    let failedStudents :=
      JS.sort by_score_desc
              (filter (fun s => JS.ltb (ns_score s) passingGrade) studentScores) in
    Some (mkStats (JS.round2 average) (JS.round2 highest) (JS.round2 lowest)
                  passed failed (JS.round2 passRate)
                  distribution approvedStudents failedStudents).

(** [join(",")] *)
Definition join_comma (cells : list string) : string := String.concat "," cells.

Section ReportsView.

Variable localeCompare : string -> string -> Z.
(** [String(n)] for the numbers interpolated into texts. *)
Variable numberToString : Q -> string.

Variable students : list Student.
Variable evaluations : list Evaluation.
Variable grades : list Grade.

(** [allStats]: what one student pushes to [cortes[corteNum]]. *)
Definition report_corteEntry (student : Student) (corteNum : Corte)
  : option (list NamedScore) :=
  let corteEvals := filter (fun ev => corte_eqb (ev_corte ev) corteNum) evaluations in
  if (0 <? List.length corteEvals)%nat then
    let corteTotal :=
      JS.reduce (fun total ev =>
                   let grade := getGrade grades (student_id student) (ev_id ev) in
                   total + score_or_zero grade * (ev_percentage ev / 100))
                0 corteEvals in
    let totalPercentage := JS.reduce (fun p ev => p + ev_percentage ev) 0 corteEvals in
    normalizedScore <-
      (if JS.ltb 0 totalPercentage
       then JS.div corteTotal (totalPercentage / 100) else Some 0) ;;
    Some [mkNamedScore (student_name student) normalizedScore]
  else Some [].

Fixpoint report_cortes (sts : list Student) (corteNum : Corte)
  : option (list NamedScore) :=
  match sts with
  | [] => Some []
  | student :: rest =>
      entry <- report_corteEntry student corteNum ;;
      others <- report_cortes rest corteNum ;;
      Some (entry ++ others)
  end.

(** [allStats]: the scores of one evaluation. *)
Definition evaluationScores (ev : Evaluation) : list NamedScore :=
  map (fun student =>
         mkNamedScore (student_name student)
                      (score_or_zero (getGrade grades (student_id student) (ev_id ev))))
      students.

Definition by_corte_then_name (a b : Evaluation) : Q :=
  JS.or_else (inject_Z (corte_number (ev_corte a)) - inject_Z (corte_number (ev_corte b)))
             (inject_Z (localeCompare (ev_name a) (ev_name b))).

Definition by_student_name (a b : Student) : Q :=
  inject_Z (localeCompare (student_name a) (student_name b)).

(** [handleDownloadCSV]: [corteEvals], indexed by [ev.corte - 1].  The
    sort is in place, on the array the view received; the results below do
    not depend on the order it leaves behind. *)
Definition csv_corteEvals : ByCorte :=
  fold_left bc_push (JS.sort by_corte_then_name evaluations) bc_empty.

Definition csv_headers : list string :=
  let headers := ["Cedula"; "Nombre"; "Correo"]%string in
  let headers :=
    fold_left (fun headers corte =>
                 let evals := bc_get csv_corteEvals corte in
                 if (0 <? List.length evals)%nat then
                   let headers :=
                     fold_left (fun headers ev =>
                                  headers ++ [(JS.quote ++ ev_name ev
                                               ++ " (" ++ numberToString (ev_percentage ev)
                                               ++ "%)" ++ JS.quote)%string])
                               evals headers in
                   headers ++ [("Total Corte " ++ JS.digits (corte_number corte))%string]
                 else headers)
              [Corte1; Corte2; Corte3] headers in
  headers ++ ["Nota Final"%string].

(** [handleDownloadCSV], innermost [forEach]: one evaluation adds its
    score cell to [row] and its weighted score to [corteTotal]. *)
Definition csv_score_cell (student : Student) (acc : list string * Q)
           (ev : Evaluation) : list string * Q :=
  let '(row, corteTotal) := acc in
  let grade := getGrade grades (student_id student) (ev_id ev) in
  let score := score_or_zero grade in
  (row ++ [JS.toFixed2 score], corteTotal + score * (ev_percentage ev / 100)).

(** [handleDownloadCSV], [corteEvals.forEach]: a corte that has
    evaluations adds its cells and its total. *)
Definition csv_corte_cells (student : Student) (acc : list string * Q)
           (corte : Corte) : list string * Q :=
  let '(row, finalGrade) := acc in
  let evals := bc_get csv_corteEvals corte in
  if (0 <? List.length evals)%nat then
    let corteTotal := 0 in
    let '(row, corteTotal) := fold_left (csv_score_cell student) evals (row, corteTotal) in
    (row ++ [JS.toFixed2 corteTotal], finalGrade + corteTotal)
  else (row, finalGrade).

(** [handleDownloadCSV]: the cells of one student's row and the final
    grade accumulated along the way. *)
Definition csv_row_cells (student : Student) : list string * Q :=
  let row := [student_id student;
              (JS.quote ++ student_name student
               ++ JS.quote)%string;
              student_email student] in
  let finalGrade := 0 in
  let '(row, finalGrade) :=
    fold_left (csv_corte_cells student) [Corte1; Corte2; Corte3] (row, finalGrade) in
  (row ++ [JS.toFixed2 finalGrade], finalGrade).

Definition csv_row (student : Student) : string :=
  (join_comma (fst (csv_row_cells student)) ++ JS.newline)%string.

Definition csvContent : string :=
  ("data:text/csv;charset=utf-8," ++ join_comma csv_headers ++ JS.newline
   ++ String.concat EmptyString (map csv_row (JS.sort by_student_name students)))%string.

End ReportsView.

(** ** The subject view ([SubjectView.tsx]) *)

Definition CORTE_PERCENTAGES (corte : Corte) : Q :=
  match corte with Corte1 => 30 | Corte2 => 30 | Corte3 => 40 end.

(** White space removed by [trim] (the ASCII part of it). *)
Definition is_space (c : ascii) : bool :=
  let n := nat_of_ascii c in
  Nat.eqb n 32 || (Nat.leb 9 n && Nat.leb n 13).

Fixpoint trim_start (s : string) : string :=
  match s with
  | String c rest => if is_space c then trim_start rest else s
  | EmptyString => EmptyString
  end.

Fixpoint trim_end (s : string) : string :=
  match s with
  | String c rest =>
      match trim_end rest with
      | EmptyString => if is_space c then EmptyString else String c EmptyString
      | kept => String c kept
      end
  | EmptyString => EmptyString
  end.

Definition trim (s : string) : string := trim_end (trim_start s).

(** [!s]: the empty string is falsy. *)
Definition is_empty (s : string) : bool :=
  match s with EmptyString => true | _ => false end.

(** The form [newEval], with its two numeric fields as the handlers read
    them: [parseFloat(newEval.percentage)], [None] for [NaN], and
    [parseInt(newEval.corte, 10)], the value of a three-way select. *)
Record NewEval : Type := mkNewEval {
  ne_name : string;
  ne_percentage : option Q;
  ne_corte : Corte }.

Definition newEval_blank : NewEval := mkNewEval EmptyString None Corte1.

(** The reasons for which a handler sets [error] and returns. *)
Inductive ValidationError : Type :=
  | MissingField
  | InvalidPercentage
  | CorteBudgetExceeded (corte : Corte) (maxPercentageForCorte available : Q)
  | TotalBudgetExceeded (available : Q).


Record ViewState : Type := mkViewState {
  isEvalModalOpen : bool;
  editingEvaluation : option Evaluation;
  newEval : NewEval;
  error : string }.

Section SubjectView.

Variable localeCompare : string -> string -> Z.
Variable numberToString : Q -> string.

Variable subject_id : string.
Variable students : list Student.
Variable evaluations : list Evaluation.
Variable grades : list Grade.

Definition subjectEvaluations : list Evaluation :=
  filter (fun ev => String.eqb (ev_subjectId ev) subject_id) evaluations.

Definition totalPercentage : Q :=
  JS.reduce (fun acc ev => acc + ev_percentage ev) 0 subjectEvaluations.

(** *** [handleSaveEvaluation] *)

Definition percentageForThisCorte (editing : option Evaluation) (corte : Corte) : Q :=
  JS.reduce (fun acc ev =>
               match editing with
               | Some edited => if String.eqb (ev_id edited) (ev_id ev) then acc
                                else acc + ev_percentage ev
               | None => acc + ev_percentage ev
               end)
            0 (filter (fun ev => corte_eqb (ev_corte ev) corte) subjectEvaluations).

Definition currentTotalWithoutEdited (editing : option Evaluation) : Q :=
  totalPercentage - match editing with Some edited => ev_percentage edited | None => 0 end.

(** The checks of [handleSaveEvaluation], in their order; [inl] is the
    error set before the early [return], [inr] the parsed percentage. *)
Definition save_checks (st : ViewState) : ValidationError + Q :=
  let corte := ne_corte (newEval st) in
  match ne_percentage (newEval st) with
  | None => inl MissingField
  | Some percentage =>
      if is_empty (trim (ne_name (newEval st))) then inl MissingField
      else if Qle_bool percentage 0 then inl InvalidPercentage
      else
        let forCorte := percentageForThisCorte (editingEvaluation st) corte in
        let maxPercentageForCorte := CORTE_PERCENTAGES corte in
        if JS.ltb maxPercentageForCorte (forCorte + percentage) then
          inl (CorteBudgetExceeded corte maxPercentageForCorte
                                   (maxPercentageForCorte - forCorte))
        else
          let withoutEdited := currentTotalWithoutEdited (editingEvaluation st) in
          if JS.ltb 100 (withoutEdited + percentage) then
            inl (TotalBudgetExceeded (100 - withoutEdited))
          else inr percentage
  end.

Definition save_message (e : ValidationError) : string :=
  match e with
  | MissingField => "Nombre y porcentaje son requeridos."
  | InvalidPercentage => "El porcentaje debe ser un número positivo."
  | CorteBudgetExceeded corte maxPercentageForCorte available =>
      "El porcentaje para el Corte " ++ JS.digits (corte_number corte)
      ++ " no puede exceder " ++ numberToString maxPercentageForCorte
      ++ "%. Disponible: " ++ JS.toFixed2 available ++ "%"
  | TotalBudgetExceeded available =>
      "El porcentaje total de todos los cortes no puede exceder 100%. Disponible: "
      ++ JS.toFixed2 available ++ "%"
  end%string.



Definition handleOpenAddEvalModal (st : ViewState) : ViewState :=
  mkViewState true None newEval_blank EmptyString.


(** *** [handleAddEvaluation] of the earlier subject view: no per-corte
    cap and no edit flow. *)

Definition add_checks (st : ViewState) : ValidationError + Q :=
  match ne_percentage (newEval st) with
  | None => inl MissingField
  | Some percentage =>
      if is_empty (trim (ne_name (newEval st))) then inl MissingField
      else if Qle_bool percentage 0 || JS.ltb 100 percentage then inl InvalidPercentage
      else if JS.ltb 100 (totalPercentage + percentage) then
        inl (TotalBudgetExceeded (100 - totalPercentage))
      else inr percentage
  end.

Definition add_message (e : ValidationError) : string :=
  match e with
  | MissingField => "Nombre y porcentaje son requeridos."
  | InvalidPercentage => "El porcentaje debe estar entre 1 y 100."
  | TotalBudgetExceeded available =>
      "El porcentaje total no puede exceder 100%. Restante: "
      ++ JS.toFixed2 available ++ "%"
  | CorteBudgetExceeded _ _ _ => EmptyString
  end%string.


(** *** The e-mail texts *)

Definition subject_evaluationsByCorte : ByCorte :=
  bc_map (JS.sort (by_name localeCompare)) (fold_left bc_push subjectEvaluations bc_empty).

(** [handleEmailByEvaluation]: [grade?.score ?? 'N/P'], as text. *)
Definition email_score (grade : option Grade) : string :=
  match grade with
  | Some g => match g_score g with Some s => numberToString s | None => "N/P" end
  | None => "N/P"
  end.

Definition email_evaluation_line (evaluation : Evaluation) (student : Student) : string :=
  (student_name student ++ ": "
   ++ email_score (getGrade grades (student_id student) (ev_id evaluation))
   ++ JS.newline)%string.

Definition email_evaluation_body (evaluation : Evaluation) : string :=
  let nl := JS.newline in
  let quote := JS.quote in
  ("Hola," ++ nl ++ nl
   ++ "A continuación se presentan las calificaciones para la evaluación "
   ++ quote ++ ev_name evaluation ++ quote
   ++ " (" ++ numberToString (ev_percentage evaluation) ++ "%):" ++ nl ++ nl
   ++ String.concat EmptyString (map (email_evaluation_line evaluation)
                            (JS.sort (by_student_name localeCompare) students))
   ++ nl ++ "Saludos.")%string.

(** [handleEmailByCorte]: the grade written for one student; the handler
    returns before this when the corte has no evaluation. *)
Definition email_normalizedGrade (student : Student) (corte : Corte) : option Q :=
  let corteEvals := bc_get subject_evaluationsByCorte corte in
  let weightedSum :=
    JS.reduce (fun total ev =>
                 let grade := getGrade grades (student_id student) (ev_id ev) in
                 let score := score_or_zero grade in
                 total + score * (ev_percentage ev / 100))
              0 corteEvals in
  let totalPercentageInCorte :=
    JS.reduce (fun total ev => total + ev_percentage ev) 0 corteEvals in
  if JS.ltb 0 totalPercentageInCorte
  then JS.div weightedSum (totalPercentageInCorte / 100) else Some 0.


End SubjectView.


(** ** The application ([App.tsx]): the store behind the callbacks *)

Record Db : Type := mkDb {
  db_students : list Student;
  db_enrollments : list (string * string);
  db_evaluations : list Evaluation;
  db_grades : list Grade }.

Definition dbGetEnrolledStudentsForSubject (db : Db) (subjectId : string) : list Student :=
  filter (fun s => existsb (fun e => String.eqb (fst e) (student_id s)
                                    && String.eqb (snd e) subjectId)
                           (db_enrollments db))
         (db_students db).

Definition dbGetEvaluationsForSubject (db : Db) (subjectId : string) : list Evaluation :=
  filter (fun ev => String.eqb (ev_subjectId ev) subjectId) (db_evaluations db).

(** [dbAddEvaluation]: the identifier is made of the clock, [now], and is
    taken to be new; every enrolled student gets a grade row without score. *)
Definition dbAddEvaluation (now : Z) (name : string) (percentage : Q) (corte : Corte)
           (subjectId : string) (db : Db) : Db :=
  let newEval := mkEvaluation ("eval-" ++ JS.digits now) subjectId corte name percentage in
  let db := mkDb (db_students db) (db_enrollments db)
                 (db_evaluations db ++ [newEval]) (db_grades db) in
  let enrolledStudents := dbGetEnrolledStudentsForSubject db subjectId in
  if (0 <? List.length enrolledStudents)%nat then
    mkDb (db_students db) (db_enrollments db) (db_evaluations db)
         (db_grades db
          ++ map (fun student => mkGrade (student_id student) (ev_id newEval) None)
                 enrolledStudents)
  else db.




(** The subject view and its parent: a handler runs on the evaluations the
    parent passes down and may call the parent back. *)
Section Callbacks.

Variable Store : Type.
Variable store_evaluations : Store -> list Evaluation.
Variable onAddEvaluation : string -> Q -> Corte -> Store -> Store.
Variable onUpdateEvaluation : Evaluation -> Store -> Store.
Variable numberToString : Q -> string.
Variable subject_id : string.




End Callbacks.

(** ** The specification's quantities *)

Definition Qsum (l : list Q) : Q := fold_right Qplus 0 l.

Definition in_corte (corte : Corte) (ev : Evaluation) : bool :=
  corte_eqb (ev_corte ev) corte.


(** Whether [ev] is the evaluation being edited
    ([editingEvaluation && editingEvaluation.id === ev.id]). *)
Definition is_edited (editing : option Evaluation) (ev : Evaluation) : bool :=
  match editing with
  | Some edited => String.eqb (ev_id edited) (ev_id ev)
  | None => false
  end.

(** The sum of the percentages of the evaluations other than the edited
    one, in the specification's words. *)
Definition percentageOfOthers (editing : option Evaluation) (evals : list Evaluation) : Q :=
  Qsum (map ev_percentage (filter (fun ev => negb (is_edited editing ev)) evals)).





(** The five ranges of the histogram: [0,4), [4,8), [8,12), [12,16) and
    [16,20]. *)
Definition in_range (i : nat) (score : Q) : bool :=
  match i with
  | 0%nat => Qle_bool 0 score && JS.ltb score 4
  | 1%nat => Qle_bool 4 score && JS.ltb score 8
  | 2%nat => Qle_bool 8 score && JS.ltb score 12
  | 3%nat => Qle_bool 12 score && JS.ltb score 16
  | 4%nat => Qle_bool 16 score && Qle_bool score 20
  | _ => false
  end.

Definition count_in_range (i : nat) (scores : list Q) : Z :=
  Z.of_nat (List.length (filter (in_range i) scores)).

Definition Zsum (l : list Z) : Z := fold_right Z.add 0%Z l.

(** The composite key of a grade. *)
Definition grade_key (g : Grade) : string * string := (g_studentId g, g_evaluationId g).

(** The test of [getGrade]'s [find]. *)
Definition matches (studentId evaluationId : string) (g : Grade) : bool :=
  String.eqb (g_studentId g) studentId && String.eqb (g_evaluationId g) evaluationId.

(** Two lists of grades that differ only in that scores missing from the
    first may be an explicit 0 in the second. *)
Definition null_for_zero (g g' : Grade) : Prop :=
  g_studentId g = g_studentId g'
  /\ g_evaluationId g = g_evaluationId g'
  /\ (g_score g = g_score g' \/ (g_score g = None /\ g_score g' = Some 0)).

(** ** Editing scores: the table's inputs and the application's grades *)

(** The [onChange] of a score input of the table.  The value of a number
    input is empty ([None]) or a number; a number is kept between 0 and 20
    by [Math.max(0, Math.min(20, parseFloat(val)))]. *)
Definition onChange_score (val : option Q) : option Q :=
  match val with
  | None => None
  | Some x => Some (JS.Qmax 0 (JS.Qmin 20 x))
  end.

(** [arr.findIndex(p)], with [None] for -1. *)
Fixpoint findIndex {A : Type} (p : A -> bool) (arr : list A) : option nat :=
  match arr with
  | [] => None
  | x :: rest => if p x then Some 0%nat else option_map S (findIndex p rest)
  end.

(** [arr[i] = f(arr[i])] for an index inside the array. *)
Fixpoint assign_at {A : Type} (i : nat) (f : A -> A) (arr : list A) : list A :=
  match arr, i with
  | [], _ => []
  | x :: rest, O => f x :: rest
  | x :: rest, S j => x :: assign_at j f rest
  end.

(** [handleUpdateGrade] of the application: the new value of [currentGrades]. *)
Definition updateCurrentGrades (studentId evaluationId : string) (score : option Q)
           (prevGrades : list Grade) : list Grade :=
  let newGrades := prevGrades in
  match findIndex (matches studentId evaluationId) newGrades with
  | Some gradeIndex =>
      assign_at gradeIndex
                (fun g => mkGrade (g_studentId g) (g_evaluationId g) score) newGrades
  | None => newGrades ++ [mkGrade studentId evaluationId score]
  end.

(** [dbUpdateGrade]: [UPDATE grades SET score = ? WHERE studentId = ? AND
    evaluationId = ?]. *)
Definition dbUpdateGrade (studentId evaluationId : string) (score : option Q) (db : Db) : Db :=
  mkDb (db_students db) (db_enrollments db) (db_evaluations db)
       (map (fun g => if matches studentId evaluationId g
                      then mkGrade (g_studentId g) (g_evaluationId g) score else g)
            (db_grades db)).

(** [dbGetGradesForSubject]: the grades joined with the evaluations of the
    subject, read in the order of the grades. *)
Definition dbGetGradesForSubject (db : Db) (subjectId : string) : list Grade :=
  flat_map (fun g =>
              map (fun _ => g)
                  (filter (fun e => String.eqb (g_evaluationId g) (ev_id e)
                                    && String.eqb (ev_subjectId e) subjectId)
                          (db_evaluations db)))
           (db_grades db).

(** [dbDeleteEvaluation]: the grades of the evaluation, then the evaluation. *)
Definition dbDeleteEvaluation (evaluationId : string) (db : Db) : Db :=
  mkDb (db_students db) (db_enrollments db)
       (filter (fun ev => negb (String.eqb (ev_id ev) evaluationId)) (db_evaluations db))
       (filter (fun g => negb (String.eqb (g_evaluationId g) evaluationId)) (db_grades db)).

(** [INSERT OR REPLACE INTO students]: a row with the same identifier gives
    way to the new one. *)
Definition replace_student (s : Student) (students : list Student) : list Student :=
  filter (fun old => negb (String.eqb (student_id old) (student_id s))) students ++ [s].

Definition dbAddOrUpdateStudents (studentsToAdd : list Student) (db : Db) : Db :=
  mkDb (fold_left (fun students s => replace_student s students) studentsToAdd
                  (db_students db))
       (db_enrollments db) (db_evaluations db) (db_grades db).

(** [INSERT OR IGNORE INTO enrollments]. *)
Definition ignore_or_enroll (studentId subjectId : string)
           (enrollments : list (string * string)) : list (string * string) :=
  if existsb (fun e => String.eqb (fst e) studentId && String.eqb (snd e) subjectId)
             enrollments
  then enrollments else enrollments ++ [(studentId, subjectId)].

(** [INSERT OR IGNORE INTO grades], with no score. *)
Definition ignore_or_grade (studentId evaluationId : string) (grades : list Grade)
  : list Grade :=
  if existsb (matches studentId evaluationId) grades
  then grades else grades ++ [mkGrade studentId evaluationId None].

Definition dbEnrollStudents (studentsToEnroll : list Student) (subjectId : string)
           (db : Db) : Db :=
  let db := dbAddOrUpdateStudents studentsToEnroll db in
  let db := mkDb (db_students db)
                 (fold_left (fun enrollments s =>
                               ignore_or_enroll (student_id s) subjectId enrollments)
                            studentsToEnroll (db_enrollments db))
                 (db_evaluations db) (db_grades db) in
  let subjectEvaluations := dbGetEvaluationsForSubject db subjectId in
  if (0 <? List.length subjectEvaluations)%nat then
    mkDb (db_students db) (db_enrollments db) (db_evaluations db)
         (fold_left (fun grades student =>
                       fold_left (fun grades ev =>
                                    ignore_or_grade (student_id student) (ev_id ev) grades)
                                 subjectEvaluations grades)
                    studentsToEnroll (db_grades db))
  else db.

(** [dbEnrollStudent]: [false] and no change for a student who is enrolled. *)
Definition dbEnrollStudent (studentToEnroll : Student) (subjectId : string) (db : Db)
  : bool * Db :=
  let isEnrolled :=
    existsb (fun e => String.eqb (fst e) (student_id studentToEnroll)
                      && String.eqb (snd e) subjectId)
            (db_enrollments db) in
  if isEnrolled then (false, db)
  else (true, dbEnrollStudents [studentToEnroll] subjectId db).

(** The condition of the join of [dbGetGradesForSubject]. *)
Definition joins (subjectId : string) (g : Grade) (e : Evaluation) : bool :=
  String.eqb (g_evaluationId g) (ev_id e) && String.eqb (ev_subjectId e) subjectId.

(** A score, when present, lies between 0 and 20. *)
Definition score_in_range (g : Grade) : Prop :=
  match g_score g with
  | Some s => 0 <= s <= 20
  | None => True
  end.

(** The store has a grade row for the student and the evaluation. *)
Definition has_grade_row (db : Db) (studentId evaluationId : string) : Prop :=
  exists g, In g (db_grades db) /\ grade_key g = (studentId, evaluationId).

(** Every enrolled student has a row in the table of students and a grade
    row for every evaluation of the subject. *)
Definition grade_rows_complete (db : Db) : Prop :=
  forall studentId subjectId,
    In (studentId, subjectId) (db_enrollments db) ->
    (exists s, In s (db_students db) /\ student_id s = studentId)
    /\ forall ev, In ev (db_evaluations db) -> ev_subjectId ev = subjectId ->
                  has_grade_row db studentId (ev_id ev).

(** Every grade row is the row of a stored evaluation and of a student
    enrolled in the subject of that evaluation. *)
Definition no_stray_grades (db : Db) : Prop :=
  forall g, In g (db_grades db) ->
            exists ev, In ev (db_evaluations db)
                       /\ ev_id ev = g_evaluationId g
                       /\ In (g_studentId g, ev_subjectId ev) (db_enrollments db).

(** A grade row exists exactly for the students enrolled in the subject of
    an evaluation. *)
Definition exact_grade_rows (db : Db) : Prop :=
  grade_rows_complete db /\ no_stray_grades db.

(** The primary keys of the schema: one row per student identifier, per
    enrollment, per evaluation identifier and per pair of a student and an
    evaluation in the grades. *)
Definition primary_keys (db : Db) : Prop :=
  NoDup (map student_id (db_students db))
  /\ NoDup (db_enrollments db)
  /\ NoDup (map ev_id (db_evaluations db))
  /\ NoDup (map grade_key (db_grades db)).

(** No evaluation and no grade row of the store carries the identifier: the
    plain [INSERT]s of [dbAddEvaluation] then meet no row with their key. *)
Definition new_evaluation_id (db : Db) (id : string) : Prop :=
  ~ In id (map ev_id (db_evaluations db))
  /\ ~ In id (map g_evaluationId (db_grades db)).

(** ** Importing students ([StudentImport.tsx]) *)

Definition comma : ascii := ascii_of_nat 44.
Definition line_feed : ascii := ascii_of_nat 10.

(** [s.split(sep)] for a separator of one character. *)
Fixpoint split (sep : ascii) (s : string) : list string :=
  match s with
  | EmptyString => [EmptyString]
  | String c rest =>
      if Ascii.eqb c sep then EmptyString :: split sep rest
      else match split sep rest with
           | part :: parts => String c part :: parts
           | [] => [String c EmptyString]
           end
  end.

(** The callback of [lines.slice(1).map]: the student of a line, or the
    message of the error thrown; [index] counts the lines after the header
    and a missing item is as good as an empty one. *)
Definition import_line (index : nat) (line : string) : string + Student :=
  let items := map trim (split comma line) in
  let id := nth 0 items EmptyString in
  let name := nth 1 items EmptyString in
  let email := nth 2 items EmptyString in
  if is_empty id || is_empty name || is_empty email then
    inl ("Error en la línea " ++ JS.digits (Z.of_nat index + 2)
         ++ ": Faltan datos. El formato debe ser cedula,nombre,correo.")%string
  else inr (mkStudent id name email).

Fixpoint import_lines (index : nat) (lines : list string) : string + list Student :=
  match lines with
  | [] => inr []
  | line :: rest =>
      match import_line index line with
      | inl message => inl message
      | inr student =>
          match import_lines (S index) rest with
          | inl message => inl message
          | inr students => inr (student :: students)
          end
      end
  end.

(** The lines of the file that are not blank. *)
Definition import_file_lines (text : string) : list string :=
  filter (fun line => negb (is_empty (trim line))) (split line_feed text).

(** [handleFileChange], on the text of the file: the students handed to
    [onStudentsLoaded], or the message of the error. *)
Definition handleFileChange (text : string) : string + list Student :=
  let lines := import_file_lines text in
  if (List.length lines <=? 1)%nat then
    inl "El archivo CSV está vacío o solo contiene la cabecera."%string
  else import_lines 0 (skipn 1 lines).

(** The text has ASCII characters only; on such a text [trim] and
    [String.prototype.trim] remove the same white space. *)
Fixpoint ascii_only (s : string) : bool :=
  match s with
  | EmptyString => true
  | String c rest => (nat_of_ascii c <? 128)%nat && ascii_only rest
  end.

(** The character occurs in the string. *)
Fixpoint has_char (c : ascii) (s : string) : bool :=
  match s with
  | EmptyString => false
  | String d rest => Ascii.eqb d c || has_char c rest
  end.

(** A field that a line of the file carries unchanged: not empty, without
    white space at its ends, without comma and without line feed. *)
Definition plain_field (f : string) : Prop :=
  is_empty f = false /\ trim f = f
  /\ has_char comma f = false /\ has_char line_feed f = false.

Definition plain_student (s : Student) : Prop :=
  plain_field (student_id s) /\ plain_field (student_name s)
  /\ plain_field (student_email s).

(** A file in the format the import asks for: a header, then one line
    [cedula,nombre,correo] per student. *)
Definition student_line (s : Student) : string :=
  (student_id s ++ String comma (student_name s ++ String comma (student_email s)))%string.

Fixpoint students_file (header : string) (students : list Student) : string :=
  match students with
  | [] => header
  | s :: rest => (header ++ String line_feed (students_file (student_line s) rest))%string
  end.

(** ** Scenarios *)

Module Scenario.

Local Open Scope string_scope.

(** A collation for the scenarios: the order of the character codes. *)
Definition ascii_order (a b : string) : Z :=
  match String.compare a b with Lt => -1 | Eq => 0 | Gt => 1 end%Z.

(** A conversion for the scenarios: integers in decimal, other numbers
    with two decimals. *)
Definition decimal (q : Q) : string :=
  if Qeq_bool (inject_Z (Qfloor q)) q then
    if JS.ltb q 0 then ("-" ++ JS.digits (- Qfloor q))%string else JS.digits (Qfloor q)
  else JS.toFixed2 q.


Definition ana : Student := mkStudent "V-1" "Ana" "ana@example.org".

(** One corte-1 evaluation "Quiz" at 30% and one student with score 15. *)
Definition quiz : Evaluation := mkEvaluation "eval-1" "subject-1" Corte1 "Quiz" 30.
Definition quiz_grades : list Grade := [mkGrade "V-1" "eval-1" (Some 15)].

(** A single evaluation at 20% in corte 1, opened for editing, with the
    percentage field then set to [percentage]. *)
Definition taller : Evaluation := mkEvaluation "eval-2" "subject-1" Corte1 "Taller" 20.


(** Three evaluations of 30%, one per corte, and the form filled to add a
    fourth one of 20% to corte 1. *)
Definition three_cortes : list Evaluation :=
  [mkEvaluation "eval-4" "subject-1" Corte1 "Parcial 1" 30;
   mkEvaluation "eval-5" "subject-1" Corte2 "Parcial 2" 30;
   mkEvaluation "eval-6" "subject-1" Corte3 "Parcial 3" 30].


(** Three students with final grades 18, 9.5 and 11. *)
Definition three_scores : list NamedScore :=
  [mkNamedScore "Ana" 18; mkNamedScore "Luis" (19 # 2); mkNamedScore "Eva" 11].

(** The grades of two students for the quiz. *)
Definition two_grades : list Grade :=
  [mkGrade "V-1" "eval-1" (Some 15); mkGrade "V-2" "eval-1" (Some 12)].

(** The same grade row twice, with different scores. *)
Definition repeated_grades : list Grade :=
  [mkGrade "V-1" "eval-1" (Some 15); mkGrade "V-1" "eval-1" (Some 10)].

(** The student's only grade not yet given, and given as 0. *)
Definition not_graded : list Grade := [mkGrade "V-1" "eval-1" None].
Definition graded_zero : list Grade := [mkGrade "V-1" "eval-1" (Some 0)].

(** A store with one student enrolled in the subject of the quiz. *)
Definition luis : Student := mkStudent "V-2" "Luis" "luis@example.org".
Definition classroom : Db :=
  mkDb [ana] [("V-1", "subject-1")] [quiz] quiz_grades.


End Scenario.

(** * Binary64

    The same code with its numbers as they are at run time: a JavaScript
    [number] is an IEEE 754 binary64 value and [+], [-], [*], [/] round to
    the nearest value, ties to even.  Rocq's primitive [float] is this
    format with these operations, so the definitions of this part compute
    what the code computes, bit for bit, [NaN] and the infinities included.
    A sum depends on the order in which it is added up. *)

Module B64.

#[local] Set Warnings "-inexact-float".
Local Open Scope float_scope.

(** [isNaN(x)] *)
Definition isNaN (x : float) : bool := negb (x =? x).

(** The rational that a finite value stands for. *)
Definition exact (x : float) : option Q :=
  match Prim2SF x with
  | S754_zero _ => Some 0%Q
  | S754_finite sign m e =>
      let magnitude :=
        if (0 <=? e)%Z then inject_Z (Z.pos m * 2 ^ e) else Z.pos m # Pos.pow 2 (Z.to_pos (- e)) in
      Some (if sign then (- magnitude)%Q else magnitude)
  | S754_infinity _ | S754_nan => None
  end.

(** [x.toFixed(2)] (for magnitudes below 1e21): the decimal is that of the
    exact value. *)
Definition toFixed2 (x : float) : string :=
  match exact x with
  | Some q => JS.toFixed2 q
  | None =>
      if isNaN x then "NaN"%string
      else if x <? 0 then "-Infinity"%string else "Infinity"%string
  end.

Record Evaluation : Type := mkEvaluation {
  ev_id : string;
  ev_subjectId : string;
  ev_corte : Corte;
  ev_name : string;
  ev_percentage : float }.

Record Grade : Type := mkGrade {
  g_studentId : string;
  g_evaluationId : string;
  g_score : option float }.

Record ByCorte : Type := mkByCorte {
  bc1 : list Evaluation;
  bc2 : list Evaluation;
  bc3 : list Evaluation }.

Definition bc_get (cortes : ByCorte) (c : Corte) : list Evaluation :=
  match c with Corte1 => bc1 cortes | Corte2 => bc2 cortes | Corte3 => bc3 cortes end.

(** [cortes[ev.corte].push(ev)] *)
Definition bc_push (cortes : ByCorte) (ev : Evaluation) : ByCorte :=
  match ev_corte ev with
  | Corte1 => mkByCorte (bc1 cortes ++ [ev]) (bc2 cortes) (bc3 cortes)
  | Corte2 => mkByCorte (bc1 cortes) (bc2 cortes ++ [ev]) (bc3 cortes)
  | Corte3 => mkByCorte (bc1 cortes) (bc2 cortes) (bc3 cortes ++ [ev])
  end.

Definition bc_map (f : list Evaluation -> list Evaluation) (cortes : ByCorte) : ByCorte :=
  mkByCorte (f (bc1 cortes)) (f (bc2 cortes)) (f (bc3 cortes)).

Definition bc_empty : ByCorte := mkByCorte [] [] [].

(** [grade?.score ?? 0] *)
Definition score_or_zero (grade : option Grade) : float :=
  match grade with
  | Some g => match g_score g with Some s => s | None => 0 end
  | None => 0
  end.

Definition getGrade (grades : list Grade) (studentId evaluationId : string)
  : option Grade :=
  find (fun g => String.eqb (g_studentId g) studentId
                 && String.eqb (g_evaluationId g) evaluationId) grades.

(** *** The grade table *)

Section GradeTable.

Variable localeCompare : string -> string -> Z.
Variable evaluations : list Evaluation.
Variable grades : list Grade.

Definition by_name (a b : Evaluation) : Q :=
  inject_Z (localeCompare (ev_name a) (ev_name b)).

Definition evaluationsByCorte : ByCorte :=
  let cortes := fold_left bc_push evaluations bc_empty in
  bc_map (JS.sort by_name) cortes.

(** [calculateCorteTotal] of [GradeTable.tsx]. *)
Definition calculateCorteTotal (studentId : string) (corte : Corte) : float :=
  let corteEvals := bc_get evaluationsByCorte corte in
  if Nat.eqb (List.length corteEvals) 0 then 0
  else JS.reduce (fun total ev =>
                    let grade := getGrade grades studentId (ev_id ev) in
                    let score := score_or_zero grade in
                    total + score * (ev_percentage ev / 100))
                 0 corteEvals.

(** [calculateWeightedCorteSum] of the later table: the same body. *)
Definition calculateWeightedCorteSum (studentId : string) (corte : Corte) : float :=
  let corteEvals := bc_get evaluationsByCorte corte in
  if Nat.eqb (List.length corteEvals) 0 then 0
  else JS.reduce (fun total ev =>
                    let grade := getGrade grades studentId (ev_id ev) in
                    let score := score_or_zero grade in
                    total + score * (ev_percentage ev / 100))
                 0 corteEvals.

Definition calculateNormalizedCorteGrade (studentId : string) (corte : Corte) : float :=
  let corteEvals := bc_get evaluationsByCorte corte in
  if Nat.eqb (List.length corteEvals) 0 then 0
  else
    let weightedSum := calculateWeightedCorteSum studentId corte in
    let totalPercentageInCorte :=
      JS.reduce (fun total ev => total + ev_percentage ev) 0 corteEvals in
    if totalPercentageInCorte =? 0 then 0
    else weightedSum / (totalPercentageInCorte / 100).

(** The final grade of a table row. *)
Definition finalGrade (studentId : string) : float :=
  let totalCorte1 := calculateCorteTotal studentId Corte1 in
  let totalCorte2 := calculateCorteTotal studentId Corte2 in
  let totalCorte3 := calculateCorteTotal studentId Corte3 in
  totalCorte1 + totalCorte2 + totalCorte3.

End GradeTable.

(** *** The reports view *)

Section ReportsView.

Variable localeCompare : string -> string -> Z.
Variable evaluations : list Evaluation.
Variable grades : list Grade.

(** [allStats]: the final grade of the general report. *)
Definition report_finalGrade (student : Student) : float :=
  JS.reduce (fun total ev =>
               let grade := getGrade grades (student_id student) (ev_id ev) in
               total + score_or_zero grade * (ev_percentage ev / 100))
            0 evaluations.

(** [allStats]: the [normalizedScore] pushed for one student to
    [cortes[corteNum]]; nothing is pushed for a corte without evaluations. *)
Definition report_normalizedScore (student : Student) (corteNum : Corte) : option float :=
  let corteEvals := filter (fun ev => corte_eqb (ev_corte ev) corteNum) evaluations in
  if (0 <? List.length corteEvals)%nat then
    let corteTotal :=
      JS.reduce (fun total ev =>
                   let grade := getGrade grades (student_id student) (ev_id ev) in
                   total + score_or_zero grade * (ev_percentage ev / 100))
                0 corteEvals in
    let totalPercentage := JS.reduce (fun p ev => p + ev_percentage ev) 0 corteEvals in
    Some (if 0 <? totalPercentage then corteTotal / (totalPercentage / 100) else 0)
  else None.

(** [calculateStats]: the test [s >= passingGrade] of the count of the
    passed and of the list of the approved students. *)
Definition passes (passingGrade score : float) : bool := passingGrade <=? score.

Definition by_corte_then_name (a b : Evaluation) : Q :=
  JS.or_else (inject_Z (corte_number (ev_corte a)) - inject_Z (corte_number (ev_corte b)))%Q
             (inject_Z (localeCompare (ev_name a) (ev_name b))).

Definition csv_corteEvals : ByCorte :=
  fold_left bc_push (JS.sort by_corte_then_name evaluations) bc_empty.

(** [handleDownloadCSV]: the numbers of one student's row, [corteTotal]
    of each corte that has evaluations and [finalGrade]. *)
Definition csv_corteTotal (student : Student) (evals : list Evaluation) : float :=
  fold_left (fun corteTotal ev =>
               let grade := getGrade grades (student_id student) (ev_id ev) in
               let score := score_or_zero grade in
               corteTotal + score * (ev_percentage ev / 100))
            evals 0.

Definition csv_finalGrade (student : Student) : float :=
  fold_left (fun finalGrade corte =>
               let evals := bc_get csv_corteEvals corte in
               if (0 <? List.length evals)%nat
               then finalGrade + csv_corteTotal student evals
               else finalGrade)
            [Corte1; Corte2; Corte3] 0.

End ReportsView.

(** *** The subject view *)

Definition CORTE_PERCENTAGES (corte : Corte) : float :=
  match corte with Corte1 => 30 | Corte2 => 30 | Corte3 => 40 end.

(** The form [newEval] as the handlers read it: the name,
    [parseFloat(newEval.percentage)], which may be [NaN], and
    [parseInt(newEval.corte, 10)], the value of a three-way select. *)
Record NewEval : Type := mkNewEval {
  ne_name : string;
  ne_percentage : float;
  ne_corte : Corte }.

Inductive ValidationError : Type :=
  | MissingField
  | InvalidPercentage
  | CorteBudgetExceeded (corte : Corte) (maxPercentageForCorte available : float)
  | TotalBudgetExceeded (available : float).

Section SubjectView.

Variable localeCompare : string -> string -> Z.
(** [String(n)] for the numbers interpolated into texts. *)
Variable numberToString : float -> string.

Variable subject_id : string.
Variable evaluations : list Evaluation.
Variable grades : list Grade.

Definition subjectEvaluations : list Evaluation :=
  filter (fun ev => String.eqb (ev_subjectId ev) subject_id) evaluations.

Definition totalPercentage : float :=
  JS.reduce (fun acc ev => acc + ev_percentage ev) 0 subjectEvaluations.

Definition percentageForThisCorte (editing : option Evaluation) (corte : Corte) : float :=
  JS.reduce (fun acc ev =>
               match editing with
               | Some edited => if String.eqb (ev_id edited) (ev_id ev) then acc
                                else acc + ev_percentage ev
               | None => acc + ev_percentage ev
               end)
            0 (filter (fun ev => corte_eqb (ev_corte ev) corte) subjectEvaluations).

Definition currentTotalWithoutEdited (editing : option Evaluation) : float :=
  totalPercentage - match editing with Some edited => ev_percentage edited | None => 0 end.

(** The checks of [handleSaveEvaluation], in their order, on the
    evaluation being edited, if any, and the form; [inl] is the error set
    before the early [return], [inr] the percentage handed to the parent. *)
Definition save_checks (editingEvaluation : option Evaluation) (newEval : NewEval)
  : ValidationError + float :=
  let percentage := ne_percentage newEval in
  let corte := ne_corte newEval in
  if is_empty (trim (ne_name newEval)) || isNaN percentage then inl MissingField
  else if percentage <=? 0 then inl InvalidPercentage
  else
    let forCorte := percentageForThisCorte editingEvaluation corte in
    let maxPercentageForCorte := CORTE_PERCENTAGES corte in
    if maxPercentageForCorte <? forCorte + percentage then
      inl (CorteBudgetExceeded corte maxPercentageForCorte
                               (maxPercentageForCorte - forCorte))
    else
      let withoutEdited := currentTotalWithoutEdited editingEvaluation in
      if 100 <? withoutEdited + percentage then
        inl (TotalBudgetExceeded (100 - withoutEdited))
      else inr percentage.

Definition save_message (e : ValidationError) : string :=
  match e with
  | MissingField => "Nombre y porcentaje son requeridos."
  | InvalidPercentage => "El porcentaje debe ser un número positivo."
  | CorteBudgetExceeded corte maxPercentageForCorte available =>
      "El porcentaje para el Corte " ++ JS.digits (corte_number corte)
      ++ " no puede exceder " ++ numberToString maxPercentageForCorte
      ++ "%. Disponible: " ++ toFixed2 available ++ "%"
  | TotalBudgetExceeded available =>
      "El porcentaje total de todos los cortes no puede exceder 100%. Disponible: "
      ++ toFixed2 available ++ "%"
  end%string.

(** The checks of [handleAddEvaluation] of the earlier subject view. *)
Definition add_checks (newEval : NewEval) : ValidationError + float :=
  let percentage := ne_percentage newEval in
  if is_empty (trim (ne_name newEval)) || isNaN percentage then inl MissingField
  else if (percentage <=? 0) || (100 <? percentage) then inl InvalidPercentage
  else if 100 <? totalPercentage + percentage then
    inl (TotalBudgetExceeded (100 - totalPercentage))
  else inr percentage.

Definition add_message (e : ValidationError) : string :=
  match e with
  | MissingField => "Nombre y porcentaje son requeridos."
  | InvalidPercentage => "El porcentaje debe estar entre 1 y 100."
  | TotalBudgetExceeded available =>
      "El porcentaje total no puede exceder 100%. Restante: "
      ++ toFixed2 available ++ "%"
  | CorteBudgetExceeded _ _ _ => EmptyString
  end%string.

Definition subject_evaluationsByCorte : ByCorte :=
  bc_map (JS.sort (by_name localeCompare)) (fold_left bc_push subjectEvaluations bc_empty).

(** [handleEmailByCorte]: the grade written for one student. *)
Definition email_normalizedGrade (student : Student) (corte : Corte) : float :=
  let corteEvals := bc_get subject_evaluationsByCorte corte in
  let weightedSum :=
    JS.reduce (fun total ev =>
                 let grade := getGrade grades (student_id student) (ev_id ev) in
                 let score := score_or_zero grade in
                 total + score * (ev_percentage ev / 100))
              0 corteEvals in
  let totalPercentageInCorte :=
    JS.reduce (fun total ev => total + ev_percentage ev) 0 corteEvals in
  if 0 <? totalPercentageInCorte
  then weightedSum / (totalPercentageInCorte / 100) else 0.

End SubjectView.

(** *** The specification's quantities *)

(** A sum of numbers: from 0, one term after the other. *)
Definition sum (terms : list float) : float := fold_left PrimFloat.add terms 0.

Definition in_corte (corte : Corte) (ev : Evaluation) : bool :=
  corte_eqb (ev_corte ev) corte.

Definition in_subject (subject_id : string) (ev : Evaluation) : bool :=
  String.eqb (ev_subjectId ev) subject_id.

(** Whether [ev] is the evaluation being edited. *)
Definition is_edited (editing : option Evaluation) (ev : Evaluation) : bool :=
  match editing with
  | Some edited => String.eqb (ev_id edited) (ev_id ev)
  | None => false
  end.

(** The sum of the percentages of the evaluations other than the edited
    one, in the specification's words. *)
Definition percentageOfOthers (editing : option Evaluation) (evals : list Evaluation)
  : float :=
  sum (map ev_percentage (filter (fun ev => negb (is_edited editing ev)) evals)).

Definition grade_key (g : Grade) : string * string := (g_studentId g, g_evaluationId g).

(** The score on record for the student in the evaluation, in the
    specification's words: the score of the grade of the pair, and 0 when
    there is no such grade or it has no score. *)
Definition recorded (grades : list Grade) (studentId evaluationId : string) (s : float)
  : Prop :=
  (exists g, In g grades /\ grade_key g = (studentId, evaluationId) /\ g_score g = Some s)
  \/ (s = 0
      /\ forall g, In g grades -> grade_key g = (studentId, evaluationId) ->
                   g_score g = None).

(** The weighted sum in the specification's words: the sum, over the
    evaluations that belong to the corte, taken in the order of their names,
    of score times percentage over 100. *)
Definition weightedCorteSum (localeCompare : string -> string -> Z)
           (score : Evaluation -> float) (corte : Corte) (evaluations : list Evaluation)
  : float :=
  sum (map (fun ev => score ev * (ev_percentage ev / 100))
           (JS.sort (by_name localeCompare) (filter (in_corte corte) evaluations))).

End B64.

(** ** Scenarios in binary64 *)

Module Scenario64.

#[local] Set Warnings "-inexact-float".
Local Open Scope string_scope.
Local Open Scope float_scope.

(** One student and three evaluations, in the order in which they were
    created: an exam of 25% in corte 2, a project of 30% and a workshop of
    10% in corte 3, with scores 18, 18 and 1. *)
Definition evaluations : list B64.Evaluation :=
  [B64.mkEvaluation "eval-1" "subject-1" Corte2 "Examen" 25;
   B64.mkEvaluation "eval-2" "subject-1" Corte3 "Proyecto" 30;
   B64.mkEvaluation "eval-3" "subject-1" Corte3 "Taller" 10].

Definition grades : list B64.Grade :=
  [B64.mkGrade "V-1" "eval-1" (Some 18);
   B64.mkGrade "V-1" "eval-2" (Some 18);
   B64.mkGrade "V-1" "eval-3" (Some 1)].

(** Three evaluations of corte 3, created in the order exam (15%),
    workshop (15%), quiz (10%), with scores 8, 18 and 1. *)
Definition corte3 : list B64.Evaluation :=
  [B64.mkEvaluation "eval-1" "subject-1" Corte3 "Examen" 15;
   B64.mkEvaluation "eval-2" "subject-1" Corte3 "Taller" 15;
   B64.mkEvaluation "eval-3" "subject-1" Corte3 "Quiz" 10].

Definition corte3_grades : list B64.Grade :=
  [B64.mkGrade "V-1" "eval-1" (Some 8);
   B64.mkGrade "V-1" "eval-2" (Some 18);
   B64.mkGrade "V-1" "eval-3" (Some 1)].

(** Two evaluations of corte 1, of 15% and 8%, and a student with 10 in
    both. *)
Definition two_tens : list B64.Evaluation :=
  [B64.mkEvaluation "eval-1" "subject-1" Corte1 "Quiz" 15;
   B64.mkEvaluation "eval-2" "subject-1" Corte1 "Taller" 8].

Definition two_tens_grades : list B64.Grade :=
  [B64.mkGrade "V-1" "eval-1" (Some 10); B64.mkGrade "V-1" "eval-2" (Some 10)].

(** Grades of which one has no score and one is missing. *)
Definition some_grades : list B64.Grade :=
  [B64.mkGrade "V-1" "eval-1" (Some 18); B64.mkGrade "V-1" "eval-2" None].

Definition some_scores (ev : B64.Evaluation) : float :=
  if String.eqb (B64.ev_id ev) "eval-1" then 18 else 0.

(** A single evaluation at 20% in corte 1. *)
Definition taller : B64.Evaluation :=
  B64.mkEvaluation "eval-2" "subject-1" Corte1 "Taller" 20.

(** Three evaluations of corte 1, each accepted when it was added: 7.3%,
    14.8% and 7.9%. *)
Definition lectura : B64.Evaluation :=
  B64.mkEvaluation "eval-1" "subject-1" Corte1 "Lectura" 7.3.
Definition ensayo : B64.Evaluation :=
  B64.mkEvaluation "eval-2" "subject-1" Corte1 "Ensayo" 14.8.
Definition debate : B64.Evaluation :=
  B64.mkEvaluation "eval-3" "subject-1" Corte1 "Debate" 7.9.

(** An evaluation of 50% in corte 1 and one of 30% in corte 2, as the
    earlier subject view, which has no cap per corte, accepts them. *)
Definition proyecto : B64.Evaluation :=
  B64.mkEvaluation "eval-3" "subject-1" Corte1 "Proyecto" 50.

(** The form as [handleOpenEditEvalModal] fills it for an evaluation. *)
Definition form_of (ev : B64.Evaluation) : B64.NewEval :=
  B64.mkNewEval (B64.ev_name ev) (B64.ev_percentage ev) (B64.ev_corte ev).

(** Three evaluations of 30%, one per corte. *)
Definition three_cortes : list B64.Evaluation :=
  [B64.mkEvaluation "eval-4" "subject-1" Corte1 "Parcial 1" 30;
   B64.mkEvaluation "eval-5" "subject-1" Corte2 "Parcial 2" 30;
   B64.mkEvaluation "eval-6" "subject-1" Corte3 "Parcial 3" 30].

(** A conversion for the scenarios: the two decimals of [toFixed], dropped
    when they are zero. *)
Definition decimal (x : float) : string :=
  match B64.exact x with
  | Some q => Scenario.decimal q
  | None => B64.toFixed2 x
  end.

End Scenario64.

(** * Properties *)

(** ** Sums of rationals *)

Section Sums.
Context {A : Type}.
Variable f : A -> Q.


End Sums.



(** ** Sorting and grouping *)

Section SortFacts.
Context {A : Type}.
Variable cmp : A -> A -> Q.

Lemma insert_Permutation (x : A) (l : list A) :
  Permutation (x :: l) (JS.insert cmp x l).
Proof.
  induction l as [|y l IH]; simpl.
  - apply Permutation_refl.
  - destruct (Qle_bool (cmp x y) 0).
    + apply Permutation_refl.
    + eapply Permutation_trans; [apply perm_swap |].
      apply perm_skip. exact IH.
Qed.

Lemma sort_Permutation (l : list A) : Permutation l (JS.sort cmp l).
Proof.
  induction l as [|x l IH]; simpl.
  - constructor.
  - eapply Permutation_trans; [| apply insert_Permutation].
    apply perm_skip. exact IH.
Qed.

Lemma sort_length (l : list A) : List.length (JS.sort cmp l) = List.length l.
Proof. symmetry. apply Permutation_length, sort_Permutation. Qed.
End SortFacts.

Lemma bc_push_get (cortes : ByCorte) (ev : Evaluation) (corte : Corte) :
  bc_get (bc_push cortes ev) corte
  = bc_get cortes corte ++ filter (in_corte corte) [ev].
Proof.
  unfold bc_push, in_corte. simpl.
  destruct (ev_corte ev), corte; simpl; auto using app_nil_r.
Qed.

Lemma fold_bc_push_get (l : list Evaluation) (cortes : ByCorte) (corte : Corte) :
  bc_get (fold_left bc_push l cortes) corte
  = bc_get cortes corte ++ filter (in_corte corte) l.
Proof.
  revert cortes. induction l as [|ev l IH]; intros cortes.
  - simpl. now rewrite app_nil_r.
  - cbn [fold_left]. rewrite IH, bc_push_get, <- app_assoc.
    f_equal. change (ev :: l) with ([ev] ++ l). now rewrite filter_app.
Qed.

Lemma bc_map_get (f : list Evaluation -> list Evaluation) (cortes : ByCorte)
      (corte : Corte) :
  bc_get (bc_map f cortes) corte = f (bc_get cortes corte).
Proof. now destruct corte. Qed.

Lemma evaluationsByCorte_get localeCompare (evaluations : list Evaluation)
      (corte : Corte) :
  bc_get (evaluationsByCorte localeCompare evaluations) corte
  = JS.sort (by_name localeCompare) (filter (in_corte corte) evaluations).
Proof.
  unfold evaluationsByCorte. rewrite bc_map_get, fold_bc_push_get.
  now destruct corte.
Qed.


(** ** The weighted sum of a corte *)

Lemma calculateCorteTotal_eq localeCompare evaluations grades studentId corte :
  calculateCorteTotal localeCompare evaluations grades studentId corte
  = calculateWeightedCorteSum localeCompare evaluations grades studentId corte.
Proof. reflexivity. Qed.

(** ** Comparisons and divisions *)

Lemma ltb_lt (a b : Q) : JS.ltb a b = true <-> a < b.
Proof.
  unfold JS.ltb. rewrite negb_true_iff, <- not_true_iff_false, Qle_bool_iff.
  split; [apply Qnot_le_lt | apply Qlt_not_le].
Qed.

Lemma ltb_ge (a b : Q) : JS.ltb a b = false <-> b <= a.
Proof.
  unfold JS.ltb. rewrite negb_false_iff. apply Qle_bool_iff.
Qed.

Lemma Qeq_bool_false (a b : Q) : ~ a == b -> Qeq_bool a b = false.
Proof.
  intros H. apply not_true_iff_false. now rewrite Qeq_bool_iff.
Qed.

Lemma div_by_percentage (w t P : Q) :
  t == P -> ~ P == 0 ->
  exists q, JS.div w (t / 100) = Some q /\ q == w / (P / 100).
Proof.
  intros Ht HP. unfold JS.div.
  rewrite Qeq_bool_false.
  - eexists. split; [reflexivity |]. now rewrite Ht.
  - rewrite Ht. intros H. apply HP.
    assert (E : P == P / 100 * 100) by field.
    rewrite E, H. ring.
Qed.


(** ** Validation of a proposed evaluation *)









(** Identifiers stay distinct in a part of the list. *)
Lemma distinct_ids_filter (keep : Evaluation -> bool) (evals : list Evaluation) :
  NoDup (map ev_id evals) -> NoDup (map ev_id (filter keep evals)).
Proof.
  induction evals as [|ev evals IH]; cbn [map filter]; intros Hnd; [constructor |].
  apply NoDup_cons_iff in Hnd. destruct Hnd as [Hfresh Hnd].
  destruct (keep ev); [| now apply IH].
  cbn [map]. constructor; [| now apply IH].
  intros Hin. apply Hfresh. apply in_map_iff in Hin. destruct Hin as (other & Eid & Hother).
  apply filter_In in Hother. apply in_map_iff. exists other. tauto.
Qed.

(** ** A rejected evaluation is not stored *)





(** ** Statistics *)

(** C9: on the empty sequence of scores [calculateStats] returns average
    0, highest 0, lowest 0, passed 0, failed 0, pass rate 0, distribution
    [0,0,0,0,0] and empty lists of passed and failed students; it returns a
    value ([Some]): nothing is divided by zero. *)
Theorem stats_of_no_scores :
  forall passingGrade : Q,
    calculateStats [] passingGrade
    = Some (mkStats 0 0 0 0 0 0 [0; 0; 0; 0; 0]%Z [] [])
    /\ calculateStats [] 10 = Some (mkStats 0 0 0 0 0 0 [0; 0; 0; 0; 0]%Z [] []).
Proof. intros passingGrade. split; reflexivity. Qed.

Lemma div_by_length (x : Q) (n : nat) :
  n <> 0%nat -> JS.div x (inject_Z (Z.of_nat n)) = Some (x / inject_Z (Z.of_nat n)).
Proof.
  intros Hn. unfold JS.div. rewrite Qeq_bool_false; [reflexivity |].
  unfold Qeq. simpl. lia.
Qed.

(** The histogram computed by the [forEach] of [calculateStats]. *)
Lemma calculateStats_distribution (studentScores : list NamedScore) (passingGrade : Q) :
  exists stats,
    calculateStats studentScores passingGrade = Some stats
    /\ distribution stats
       = fold_left (fun distribution score => increment (bucket score) distribution)
                   (map ns_score studentScores) [0; 0; 0; 0; 0]%Z.
Proof.
  unfold calculateStats. destruct studentScores as [|s rest].
  - eexists. split; reflexivity.
  - cbn [List.length Nat.eqb]. cbv zeta.
    rewrite !div_by_length by (cbn [map List.length]; discriminate).
    cbn [map JS.Math_max JS.Math_min].
    eexists. split; reflexivity.
Qed.

Lemma bucket_bound (score : Q) : (bucket score < 5)%nat.
Proof.
  unfold bucket.
  destruct (JS.ltb score 4), (JS.ltb score 8), (JS.ltb score 12), (JS.ltb score 16); lia.
Qed.

Lemma tally_counts (scores : list Q) (a b c d e : Z) :
  fold_left (fun distribution score => increment (bucket score) distribution)
            scores [a; b; c; d; e]
  = let n i := Z.of_nat (List.length (filter (fun s => Nat.eqb (bucket s) i) scores)) in
    [a + n 0%nat; b + n 1%nat; c + n 2%nat; d + n 3%nat; e + n 4%nat]%Z.
Proof.
  revert a b c d e.
  induction scores as [|s scores IH]; intros a b c d e; cbn [fold_left filter].
  - cbn. now rewrite !Z.add_0_r.
  - cbv zeta in IH |- *. pose proof (bucket_bound s) as B.
    destruct (bucket s) as [|[|[|[|[|n]]]]]; [| | | | | lia];
      cbn [increment Nat.eqb List.length]; rewrite IH;
      repeat (apply f_equal2; [lia |]); reflexivity.
Qed.

Lemma bucket_in_range (score : Q) (i : nat) :
  0 <= score <= 20 -> in_range i score = Nat.eqb (bucket score) i.
Proof.
  intros [Hlo Hhi]. unfold bucket.
  assert (L : forall x, JS.ltb score x = true \/ JS.ltb score x = false)
    by (intros x; destruct (JS.ltb score x); auto).
  assert (T : forall x y, x <= y -> Qle_bool x y = true) by (intros; now apply Qle_bool_iff).
  assert (F : forall x y, y < x -> Qle_bool x y = false).
  { intros x y H. apply not_true_iff_false. rewrite Qle_bool_iff. lra. }
  destruct (L 4) as [H4 | H4]; rewrite H4.
  { apply ltb_lt in H4.
    destruct i as [|[|[|[|[|]]]]]; cbn [in_range Nat.eqb];
      rewrite ?T, ?F by lra; rewrite ?andb_false_l; try reflexivity.
    apply ltb_lt. lra. }
  apply ltb_ge in H4.
  destruct (L 8) as [H8 | H8]; rewrite H8.
  { apply ltb_lt in H8.
    destruct i as [|[|[|[|[|]]]]]; cbn [in_range Nat.eqb];
      rewrite ?T, ?F by lra; rewrite ?andb_false_l, ?andb_true_l; try reflexivity.
    - apply ltb_ge. lra.
    - apply ltb_lt. lra. }
  apply ltb_ge in H8.
  destruct (L 12) as [H12 | H12]; rewrite H12.
  { apply ltb_lt in H12.
    destruct i as [|[|[|[|[|]]]]]; cbn [in_range Nat.eqb];
      rewrite ?T, ?F by lra; rewrite ?andb_false_l, ?andb_true_l; try reflexivity.
    - apply ltb_ge. lra.
    - apply ltb_ge. lra.
    - apply ltb_lt. lra. }
  apply ltb_ge in H12.
  destruct (L 16) as [H16 | H16]; rewrite H16.
  { apply ltb_lt in H16.
    destruct i as [|[|[|[|[|]]]]]; cbn [in_range Nat.eqb];
      rewrite ?T, ?F by lra; rewrite ?andb_false_l, ?andb_true_l; try reflexivity.
    - apply ltb_ge. lra.
    - apply ltb_ge. lra.
    - apply ltb_ge. lra.
    - apply ltb_lt. lra. }
  apply ltb_ge in H16.
  destruct i as [|[|[|[|[|]]]]]; cbn [in_range Nat.eqb];
    rewrite ?T, ?F by lra; rewrite ?andb_false_l, ?andb_true_l; try reflexivity;
    apply ltb_ge; lra.
Qed.

Lemma increment_nth (k : nat) (dist : list Z) (i : nat) :
  (k < List.length dist)%nat ->
  nth i (increment k dist) 0%Z
  = (nth i dist 0 + if Nat.eqb i k then 1 else 0)%Z.
Proof.
  revert k i. induction dist as [|n dist IH]; intros k i Hk; cbn [List.length] in Hk.
  - lia.
  - destruct k as [|k]; cbn [increment].
    + destruct i as [|i]; cbn [nth Nat.eqb]; lia.
    + destruct i as [|i]; cbn [nth Nat.eqb]; [lia |].
      apply IH. lia.
Qed.

Lemma buckets_cover (scores : list Q) :
  let n i := Z.of_nat (List.length (filter (fun s => Nat.eqb (bucket s) i) scores)) in
  (n 0%nat + n 1%nat + n 2%nat + n 3%nat + n 4%nat)%Z = Z.of_nat (List.length scores).
Proof.
  cbv zeta. induction scores as [|s scores IH]; [reflexivity |].
  cbn [filter List.length]. pose proof (bucket_bound s) as B.
  destruct (bucket s) as [|[|[|[|[|n]]]]]; [| | | | | lia];
    cbn [Nat.eqb List.length]; lia.
Qed.

Lemma counts_by_range (scores : list Q) (i : nat) :
  Forall (fun s => 0 <= s <= 20) scores ->
  Z.of_nat (List.length (filter (fun s => Nat.eqb (bucket s) i) scores))
  = count_in_range i scores.
Proof.
  intros H. unfold count_in_range. do 2 f_equal.
  apply filter_ext_in. intros s Hs. symmetry. apply bucket_in_range.
  rewrite Forall_forall in H. now apply H.
Qed.

(** C8: a score in [0,20] lies in exactly one of the ranges [0,4),
    [4,8), [8,12), [12,16), [16,20], the one whose counter the chain of
    comparisons of [calculateStats] increments, and that step adds 1 to this
    counter and leaves the other four as they were; so for scores in [0,20]
    each counter of the returned distribution is the number of scores in its
    range and the five counters add up to the number of scores. *)
Theorem distribution_partitions_scores :
  (forall score : Q,
      0 <= score <= 20 ->
      (bucket score < 5)%nat
      /\ (forall i, in_range i score = true <-> i = bucket score)
      /\ (forall (a b c d e : Z) (i : nat),
             nth i (increment (bucket score) [a; b; c; d; e]) 0%Z
             = (nth i [a; b; c; d; e] 0 + if Nat.eqb i (bucket score) then 1 else 0)%Z))
  /\ (forall (studentScores : list NamedScore) (passingGrade : Q),
         Forall (fun s => 0 <= ns_score s <= 20) studentScores ->
         exists stats,
           calculateStats studentScores passingGrade = Some stats
           /\ distribution stats
              = map (fun i => count_in_range i (map ns_score studentScores))
                    [0; 1; 2; 3; 4]%nat
           /\ Zsum (distribution stats) = Z.of_nat (List.length studentScores)).
Proof.
  split.
  - intros score Hscore. split; [apply bucket_bound | split].
    + intros i. rewrite (bucket_in_range score i Hscore), Nat.eqb_eq.
      split; intros H; now symmetry.
    + intros a b c d e i. apply increment_nth.
      cbn [List.length]. apply bucket_bound.
  - intros studentScores passingGrade Hrange.
    destruct (calculateStats_distribution studentScores passingGrade)
      as (stats & Hstats & Hdist).
    exists stats. split; [exact Hstats |].
    rewrite tally_counts in Hdist. cbv zeta in Hdist.
    assert (Hscores : Forall (fun s => 0 <= s <= 20) (map ns_score studentScores)).
    { apply Forall_map. exact Hrange. }
    split.
    + rewrite Hdist. cbn [map].
      now rewrite <- !(counts_by_range _ _ Hscores).
    + rewrite Hdist. cbn [Zsum fold_right].
      pose proof (buckets_cover (map ns_score studentScores)) as Hcover.
      cbv zeta in Hcover. rewrite length_map in Hcover. lia.
Qed.

Lemma distribution_partitions_scores_witness :
  (in_range 2 (19 # 2) = true <-> 2%nat = bucket (19 # 2))
  /\ exists stats,
      calculateStats Scenario.three_scores 10 = Some stats
      /\ distribution stats = [0; 0; 2; 0; 1]%Z
      /\ Zsum (distribution stats) = 3%Z.
Proof.
  destruct distribution_partitions_scores as [Hone Hall].
  split.
  - apply (Hone (19 # 2)). split; discriminate.
  - destruct (Hall Scenario.three_scores 10) as (stats & Hstats & Hdist & Hsum).
    + repeat constructor; discriminate.
    + exists stats. split; [exact Hstats | split; [| exact Hsum]].
      rewrite Hdist. reflexivity.
Defined.

(** ** The lookup of a grade *)

Lemma getGrade_find grades studentId evaluationId :
  getGrade grades studentId evaluationId = find (matches studentId evaluationId) grades.
Proof. reflexivity. Qed.

Lemma getGrade_first_match grades studentId evaluationId :
  match getGrade grades studentId evaluationId with
  | Some g =>
      exists before after,
        grades = before ++ g :: after
        /\ matches studentId evaluationId g = true
        /\ Forall (fun x => matches studentId evaluationId x = false) before
  | None => Forall (fun x => matches studentId evaluationId x = false) grades
  end.
Proof.
  rewrite getGrade_find.
  induction grades as [|x grades IH]; cbn [find]; [constructor |].
  destruct (matches studentId evaluationId x) eqn:Ex.
  - exists [], grades. repeat split; [exact Ex | constructor].
  - destruct (find _ grades) as [g|].
    + destruct IH as (before & after & -> & Hg & Hbefore).
      exists (x :: before), after. repeat split; [exact Hg | now constructor].
    + now constructor.
Qed.

Lemma matches_key studentId evaluationId g :
  matches studentId evaluationId g = true <-> grade_key g = (studentId, evaluationId).
Proof.
  unfold matches, grade_key. rewrite andb_true_iff, !String.eqb_eq.
  split; [intros [-> ->]; reflexivity | intros H; injection H; auto].
Qed.

Lemma getGrade_unique grades studentId evaluationId g :
  NoDup (map grade_key grades) -> In g grades ->
  matches studentId evaluationId g = true ->
  getGrade grades studentId evaluationId = Some g.
Proof.
  rewrite getGrade_find. intros Hnd Hin Hg.
  induction grades as [|x grades IH]; [contradiction |].
  cbn [map] in Hnd. apply NoDup_cons_iff in Hnd. destruct Hnd as [Hx Hnd].
  cbn [find]. destruct (matches studentId evaluationId x) eqn:Ex.
  - destruct Hin as [-> | Hin]; [reflexivity |].
    exfalso. apply Hx. apply matches_key in Ex, Hg.
    rewrite Ex, <- Hg. now apply in_map.
  - destruct Hin as [-> | Hin]; [congruence |]. now apply IH.
Qed.

Lemma getGrade_Permutation grades grades' studentId evaluationId :
  NoDup (map grade_key grades) -> Permutation grades grades' ->
  getGrade grades studentId evaluationId = getGrade grades' studentId evaluationId.
Proof.
  intros Hnd Hperm.
  assert (Hnd' : NoDup (map grade_key grades')).
  { eapply Permutation_NoDup; [| exact Hnd]. now apply Permutation_map. }
  destruct (getGrade grades studentId evaluationId) as [g|] eqn:E.
  - rewrite getGrade_find in E. apply find_some in E. destruct E as [Hin Hg].
    symmetry. apply getGrade_unique; [exact Hnd' | | exact Hg].
    eapply Permutation_in; eassumption.
  - destruct (getGrade grades' studentId evaluationId) as [g'|] eqn:E'; [| reflexivity].
    rewrite getGrade_find in E, E'. apply find_some in E'. destruct E' as [Hin Hg].
    apply Permutation_sym in Hperm.
    pose proof (find_none _ _ E g' (Permutation_in _ Hperm Hin)). congruence.
Qed.

Lemma fold_left_pointwise {A B : Type} (f g : B -> A -> B) (l : list A) (b : B) :
  (forall acc x, f acc x = g acc x) -> fold_left f l b = fold_left g l b.
Proof.
  intros H. revert b. induction l as [|x l IH]; intros b; cbn [fold_left];
    [reflexivity |]. now rewrite H, IH.
Qed.

(** The aggregations read the grades through [getGrade] only. *)
Section SameLookups.
Variables grades grades' : list Grade.
Hypothesis same :
  forall studentId evaluationId,
    getGrade grades studentId evaluationId = getGrade grades' studentId evaluationId.

Lemma calculateWeightedCorteSum_lookup localeCompare evaluations studentId corte :
  calculateWeightedCorteSum localeCompare evaluations grades studentId corte
  = calculateWeightedCorteSum localeCompare evaluations grades' studentId corte.
Proof.
  unfold calculateWeightedCorteSum, JS.reduce. cbv zeta.
  destruct (Nat.eqb _ 0); [reflexivity |].
  apply fold_left_pointwise. intros acc ev. now rewrite same.
Qed.

Lemma calculateNormalizedCorteGrade_lookup localeCompare evaluations studentId corte :
  calculateNormalizedCorteGrade localeCompare evaluations grades studentId corte
  = calculateNormalizedCorteGrade localeCompare evaluations grades' studentId corte.
Proof.
  unfold calculateNormalizedCorteGrade.
  now rewrite calculateWeightedCorteSum_lookup.
Qed.

Lemma finalGrade_lookup localeCompare evaluations studentId :
  finalGrade localeCompare evaluations grades studentId
  = finalGrade localeCompare evaluations grades' studentId.
Proof.
  unfold finalGrade. cbv zeta.
  now rewrite !calculateCorteTotal_eq, !calculateWeightedCorteSum_lookup.
Qed.
End SameLookups.

(** C10: [getGrade] returns the first entry of the grades list that
    matches the student and the evaluation (and nothing when none does); so
    on a list where each pair (student, evaluation) occurs at most once, the
    weighted corte sum, the normalized corte grade and the final grade do
    not change when the list is permuted, whereas with two entries for the
    same pair they depend on the order: only the first entry counts. *)
Theorem grade_lookup_takes_first_match :
  (forall grades studentId evaluationId,
      match getGrade grades studentId evaluationId with
      | Some g =>
          exists before after,
            grades = before ++ g :: after
            /\ matches studentId evaluationId g = true
            /\ Forall (fun x => matches studentId evaluationId x = false) before
      | None => Forall (fun x => matches studentId evaluationId x = false) grades
      end)
  /\ (forall localeCompare evaluations grades grades' studentId corte,
         NoDup (map grade_key grades) -> Permutation grades grades' ->
         calculateWeightedCorteSum localeCompare evaluations grades studentId corte
         = calculateWeightedCorteSum localeCompare evaluations grades' studentId corte
         /\ calculateNormalizedCorteGrade localeCompare evaluations grades studentId corte
            = calculateNormalizedCorteGrade localeCompare evaluations grades' studentId corte
         /\ finalGrade localeCompare evaluations grades studentId
            = finalGrade localeCompare evaluations grades' studentId)
  /\ (Permutation Scenario.repeated_grades (rev Scenario.repeated_grades)
      /\ calculateWeightedCorteSum Scenario.ascii_order [Scenario.quiz]
           Scenario.repeated_grades "V-1" Corte1 == 9 # 2
      /\ calculateWeightedCorteSum Scenario.ascii_order [Scenario.quiz]
           (rev Scenario.repeated_grades) "V-1" Corte1 == 3
      /\ (exists q q',
             calculateNormalizedCorteGrade Scenario.ascii_order [Scenario.quiz]
               Scenario.repeated_grades "V-1" Corte1 = Some q
             /\ calculateNormalizedCorteGrade Scenario.ascii_order [Scenario.quiz]
                  (rev Scenario.repeated_grades) "V-1" Corte1 = Some q'
             /\ q == 15 /\ q' == 10)
      /\ finalGrade Scenario.ascii_order [Scenario.quiz] Scenario.repeated_grades "V-1"
         == 9 # 2
      /\ finalGrade Scenario.ascii_order [Scenario.quiz] (rev Scenario.repeated_grades) "V-1"
         == 3).
Proof.
  split; [exact getGrade_first_match | split].
  - intros localeCompare evaluations grades grades' studentId corte Hnd Hperm.
    pose proof (fun s e => getGrade_Permutation grades grades' s e Hnd Hperm) as same.
    split; [| split].
    + now apply calculateWeightedCorteSum_lookup.
    + now apply calculateNormalizedCorteGrade_lookup.
    + now apply finalGrade_lookup.
  - split; [apply Permutation_rev |].
    split; [reflexivity | split; [reflexivity | split; [| split; reflexivity]]].
    eexists. eexists. split; [reflexivity | split; [reflexivity | split; reflexivity]].
Qed.

Lemma grade_lookup_takes_first_match_witness :
  calculateWeightedCorteSum Scenario.ascii_order [Scenario.quiz]
    Scenario.two_grades "V-1" Corte1
  = calculateWeightedCorteSum Scenario.ascii_order [Scenario.quiz]
      (rev Scenario.two_grades) "V-1" Corte1
  /\ finalGrade Scenario.ascii_order [Scenario.quiz] Scenario.two_grades "V-2"
     = finalGrade Scenario.ascii_order [Scenario.quiz] (rev Scenario.two_grades) "V-2".
Proof.
  assert (Hnd : NoDup (map grade_key Scenario.two_grades)).
  { repeat constructor; cbn; [intros [H | []]; discriminate H | intros []]. }
  split.
  - apply (proj1 (proj2 grade_lookup_takes_first_match)).
    + exact Hnd.
    + apply Permutation_rev.
  - apply (proj1 (proj2 grade_lookup_takes_first_match)
                 Scenario.ascii_order [Scenario.quiz] Scenario.two_grades
                 (rev Scenario.two_grades) "V-2"%string Corte1 Hnd (Permutation_rev _)).
Defined.

(** ** A missing score and a score of 0 in the texts *)

Lemma score_or_zero_null_for_zero (grades grades' : list Grade) :
  Forall2 null_for_zero grades grades' ->
  forall studentId evaluationId,
    score_or_zero (getGrade grades studentId evaluationId)
    = score_or_zero (getGrade grades' studentId evaluationId).
Proof.
  intros H studentId evaluationId. rewrite !getGrade_find.
  induction H as [|g g' grades grades' (Es & Ee & Hscore) _ IH]; [reflexivity |].
  cbn [find]. unfold matches at 1 3. rewrite <- Es, <- Ee.
  destruct (_ && _); [| exact IH].
  unfold score_or_zero. destruct Hscore as [-> | [-> ->]]; reflexivity.
Qed.

(** The export writes the same row whether a score is missing or 0. *)
Lemma csv_row_null_for_zero localeCompare evaluations (grades grades' : list Grade)
      (student : Student) :
  Forall2 null_for_zero grades grades' ->
  csv_row localeCompare evaluations grades student
  = csv_row localeCompare evaluations grades' student.
Proof.
  intros H. unfold csv_row, csv_row_cells. cbv zeta.
  assert (E : forall acc corte,
             csv_corte_cells localeCompare evaluations grades student acc corte
             = csv_corte_cells localeCompare evaluations grades' student acc corte).
  { intros [row finalGrade] corte. unfold csv_corte_cells. cbv zeta.
    destruct (0 <? _)%nat; [| reflexivity].
    rewrite (fold_left_pointwise (csv_score_cell grades student)
                                 (csv_score_cell grades' student)); [reflexivity |].
    intros [row' corteTotal] ev. unfold csv_score_cell. cbv zeta.
    now rewrite (score_or_zero_null_for_zero _ _ H). }
  now rewrite (fold_left_pointwise _ _ _ _ E).
Qed.

(** C5, at the failing input: for the quiz and a student whose grade is
    missing in one snapshot and 0 in the other, the CSV export writes the
    same row, with the score cell [0.00] in both, although the e-mail of the
    evaluation tells them apart ([N/P] against [0]). *)
Theorem csv_row_shows_missing_score_as_zero :
  csv_row Scenario.ascii_order [Scenario.quiz] Scenario.not_graded Scenario.ana
  = ("V-1," ++ JS.quote ++ "Ana" ++ JS.quote ++ ",ana@example.org,0.00,0.00,0.00"
     ++ JS.newline)%string
  /\ csv_row Scenario.ascii_order [Scenario.quiz] Scenario.graded_zero Scenario.ana
     = csv_row Scenario.ascii_order [Scenario.quiz] Scenario.not_graded Scenario.ana
  /\ email_evaluation_line Scenario.decimal Scenario.not_graded Scenario.quiz Scenario.ana
     = ("Ana: N/P" ++ JS.newline)%string
  /\ email_evaluation_line Scenario.decimal Scenario.graded_zero Scenario.quiz Scenario.ana
     = ("Ana: 0" ++ JS.newline)%string
  /\ evaluationScores [Scenario.ana] Scenario.not_graded Scenario.quiz
     = evaluationScores [Scenario.ana] Scenario.graded_zero Scenario.quiz.
Proof.
  repeat split.
Qed.

(** * Further properties of the code *)

(** ** Sorting with a comparator *)

Section SortOrder.
Context {A : Type}.
Variable cmp : A -> A -> Q.

(** The comparator never puts each of two elements after the other. *)
Hypothesis cmp_total : forall x y, 0 < cmp x y -> cmp y x <= 0.

Lemma insert_HdRel (x a : A) (l : list A) :
  cmp a x <= 0 -> HdRel (fun u v => cmp u v <= 0) a l ->
  HdRel (fun u v => cmp u v <= 0) a (JS.insert cmp x l).
Proof.
  intros Hax Hal. destruct l as [|y l]; cbn [JS.insert].
  - now constructor.
  - destruct (Qle_bool (cmp x y) 0); constructor; [exact Hax |].
    now inversion Hal.
Qed.

Lemma insert_Sorted (x : A) (l : list A) :
  Sorted (fun u v => cmp u v <= 0) l ->
  Sorted (fun u v => cmp u v <= 0) (JS.insert cmp x l).
Proof.
  induction 1 as [|y l Hl IH Hy]; cbn [JS.insert].
  - repeat constructor.
  - destruct (Qle_bool (cmp x y) 0) eqn:E.
    + apply Qle_bool_iff in E. repeat constructor; assumption.
    + constructor; [exact IH |]. apply insert_HdRel; [| exact Hy].
      apply cmp_total. apply Qnot_le_lt. intros H.
      apply Qle_bool_iff in H. congruence.
Qed.

Lemma sort_Sorted (l : list A) : Sorted (fun u v => cmp u v <= 0) (JS.sort cmp l).
Proof.
  induction l as [|x l IH]; cbn [JS.sort]; [constructor |].
  now apply insert_Sorted.
Qed.
End SortOrder.

(** ** Statistics of a list of scores *)

Lemma filter_length_map {A B : Type} (f : A -> B) (p : B -> bool) (l : list A) :
  List.length (filter p (map f l)) = List.length (filter (fun x => p (f x)) l).
Proof.
  induction l as [|x l IH]; cbn [map filter]; [reflexivity |].
  destruct (p (f x)); cbn [List.length]; congruence.
Qed.

Lemma filter_split_Permutation {A : Type} (p q : A -> bool) (l : list A) :
  (forall x, q x = negb (p x)) -> Permutation (filter p l ++ filter q l) l.
Proof.
  intros Hq. induction l as [|x l IH]; cbn [filter]; [constructor |].
  rewrite Hq. destruct (p x); cbn [negb app].
  - now constructor.
  - eapply Permutation_trans; [apply Permutation_sym, Permutation_middle |].
    now constructor.
Qed.

Lemma filter_split_length {A : Type} (p q : A -> bool) (l : list A) :
  (forall x, q x = negb (p x)) ->
  (List.length (filter p l) + List.length (filter q l) = List.length l)%nat.
Proof.
  intros Hq. rewrite <- length_app.
  apply Permutation_length, filter_split_Permutation, Hq.
Qed.

(** What [calculateStats] returns on a list that is not empty. *)
Lemma calculateStats_fields (s : NamedScore) (rest : list NamedScore) (passingGrade : Q) :
  let studentScores := s :: rest in
  let scores := map ns_score studentScores in
  let len := inject_Z (Z.of_nat (List.length scores)) in
  let passed :=
    Z.of_nat (List.length (filter (fun x => Qle_bool passingGrade x) scores)) in
  calculateStats studentScores passingGrade
  = Some (mkStats
            (JS.round2 (JS.reduce (fun a b => a + b) 0 scores / len))
            (JS.round2 (fold_left JS.Qmax (map ns_score rest) (ns_score s)))
            (JS.round2 (fold_left JS.Qmin (map ns_score rest) (ns_score s)))
            passed
            (Z.of_nat (List.length scores) - passed)
            (JS.round2 (inject_Z passed / len * 100))
            (fold_left (fun distribution score => increment (bucket score) distribution)
                       scores [0; 0; 0; 0; 0]%Z)
            (JS.sort by_score_desc
                     (filter (fun x => Qle_bool passingGrade (ns_score x)) studentScores))
            (JS.sort by_score_desc
                     (filter (fun x => JS.ltb (ns_score x) passingGrade) studentScores))).
Proof.
  cbv zeta. unfold calculateStats. cbn [List.length Nat.eqb]. cbv zeta.
  rewrite !div_by_length by (cbn [map List.length]; discriminate).
  reflexivity.
Qed.

Lemma by_score_desc_total (a b : NamedScore) :
  0 < by_score_desc a b -> by_score_desc b a <= 0.
Proof. unfold by_score_desc. lra. Qed.

Lemma sort_by_score_descending (l : list NamedScore) :
  StronglySorted (fun a b => ns_score b <= ns_score a) (JS.sort by_score_desc l).
Proof.
  apply Sorted_StronglySorted.
  - intros a b c Hab Hbc. lra.
  - pose proof (sort_Sorted by_score_desc by_score_desc_total l) as H.
    induction H as [|a rest _ IH Hhd]; constructor; [exact IH |].
    destruct Hhd as [|b rest' Hab]; constructor.
    unfold by_score_desc in Hab. lra.
Qed.

Lemma sort_Forall {A : Type} (cmp : A -> A -> Q) (P : A -> Prop) (l : list A) :
  Forall P l -> Forall P (JS.sort cmp l).
Proof.
  intros H. rewrite Forall_forall in *. intros x Hx. apply H.
  eapply Permutation_in; [apply Permutation_sym, sort_Permutation | exact Hx].
Qed.

(** X1: [calculateStats] always returns a result; it counts every score once,
    as passed or as failed, and lists every student once, among the approved
    when the score reaches the passing grade and among the failed otherwise. *)
Theorem stats_split_students_by_passing_grade :
  forall (studentScores : list NamedScore) (passingGrade : Q),
  exists stats,
    calculateStats studentScores passingGrade = Some stats
    /\ (passed stats + failed stats)%Z = Z.of_nat (List.length studentScores)
    /\ passed stats = Z.of_nat (List.length (approvedStudents stats))
    /\ failed stats = Z.of_nat (List.length (failedStudents stats))
    /\ Permutation (approvedStudents stats ++ failedStudents stats) studentScores
    /\ Forall (fun s => passingGrade <= ns_score s) (approvedStudents stats)
    /\ Forall (fun s => ns_score s < passingGrade) (failedStudents stats).
Proof.
  intros [|s rest] passingGrade.
  - eexists. split; [reflexivity |]. cbn. repeat split; constructor.
  - eexists. split; [apply calculateStats_fields |].
    cbn [passed failed approvedStudents failedStudents].
    set (l := s :: rest).
    assert (Hneg : forall x : NamedScore,
               JS.ltb (ns_score x) passingGrade = negb (Qle_bool passingGrade (ns_score x)))
      by reflexivity.
    pose proof (filter_split_length (fun x => Qle_bool passingGrade (ns_score x))
                                    (fun x => JS.ltb (ns_score x) passingGrade) l Hneg) as Hlen.
    rewrite !sort_length, length_map, filter_length_map.
    split; [lia | split; [reflexivity | split; [lia | split; [| split]]]].
    + eapply Permutation_trans; [| apply (filter_split_Permutation _ _ l Hneg)].
      apply Permutation_app; apply Permutation_sym, sort_Permutation.
    + apply sort_Forall, Forall_forall. intros x Hx.
      apply filter_In in Hx. now apply Qle_bool_iff.
    + apply sort_Forall, Forall_forall. intros x Hx.
      apply filter_In in Hx. now apply ltb_lt.
Qed.

(** X2: The lists of approved and of failed students returned by
    [calculateStats] are in descending order of score. *)
Theorem stats_lists_in_descending_order :
  forall (studentScores : list NamedScore) (passingGrade : Q),
  exists stats,
    calculateStats studentScores passingGrade = Some stats
    /\ StronglySorted (fun a b => ns_score b <= ns_score a) (approvedStudents stats)
    /\ StronglySorted (fun a b => ns_score b <= ns_score a) (failedStudents stats).
Proof.
  intros [|s rest] passingGrade.
  - eexists. split; [reflexivity |]. split; constructor.
  - eexists. split; [apply calculateStats_fields |].
    cbn [approvedStudents failedStudents]. split; apply sort_by_score_descending.
Qed.

(** ** Editing a score *)

Lemma updateCurrentGrades_cons studentId evaluationId score (g : Grade) (rest : list Grade) :
  updateCurrentGrades studentId evaluationId score (g :: rest)
  = if matches studentId evaluationId g
    then mkGrade (g_studentId g) (g_evaluationId g) score :: rest
    else g :: updateCurrentGrades studentId evaluationId score rest.
Proof.
  unfold updateCurrentGrades. cbv zeta. cbn [findIndex].
  destruct (matches studentId evaluationId g); [reflexivity |].
  destruct (findIndex _ rest); reflexivity.
Qed.

Lemma updateCurrentGrades_nil studentId evaluationId score :
  updateCurrentGrades studentId evaluationId score []
  = [mkGrade studentId evaluationId score].
Proof. reflexivity. Qed.

Lemma matches_refl studentId evaluationId score :
  matches studentId evaluationId (mkGrade studentId evaluationId score) = true.
Proof. unfold matches. cbn. now rewrite !String.eqb_refl. Qed.

Lemma matches_other studentId evaluationId studentId' evaluationId' (g : Grade) :
  (studentId', evaluationId') <> (studentId, evaluationId) ->
  matches studentId evaluationId g = true ->
  matches studentId' evaluationId' g = false.
Proof.
  intros Hne Hg. apply not_true_iff_false. intros Hg'.
  apply matches_key in Hg, Hg'. congruence.
Qed.

Lemma updated_grade_found studentId evaluationId score (grades : list Grade) :
  exists g,
    getGrade (updateCurrentGrades studentId evaluationId score grades)
             studentId evaluationId = Some g
    /\ g_score g = score /\ grade_key g = (studentId, evaluationId).
Proof.
  induction grades as [|x grades IH].
  - rewrite updateCurrentGrades_nil, getGrade_find. cbn [find].
    rewrite matches_refl. eexists. repeat split.
  - rewrite updateCurrentGrades_cons, getGrade_find.
    destruct (matches studentId evaluationId x) eqn:Ex; cbn [find].
    + unfold matches in *. cbn [g_studentId g_evaluationId]. rewrite Ex.
      eexists. split; [reflexivity | split; [reflexivity |]].
      apply andb_true_iff in Ex. destruct Ex as [E1 E2].
      apply String.eqb_eq in E1, E2. unfold grade_key. cbn. congruence.
    + rewrite Ex. exact IH.
Qed.

Lemma other_grades_kept studentId evaluationId score (grades : list Grade)
      studentId' evaluationId' :
  (studentId', evaluationId') <> (studentId, evaluationId) ->
  getGrade (updateCurrentGrades studentId evaluationId score grades)
           studentId' evaluationId'
  = getGrade grades studentId' evaluationId'.
Proof.
  intros Hne. rewrite !getGrade_find.
  induction grades as [|x grades IH].
  - rewrite updateCurrentGrades_nil. cbn [find].
    now rewrite (matches_other _ _ _ _ _ Hne (matches_refl _ _ score)).
  - rewrite updateCurrentGrades_cons.
    destruct (matches studentId evaluationId x) eqn:Ex; cbn [find].
    + rewrite (matches_other _ _ _ _ x Hne Ex).
      assert (Ex' : matches studentId evaluationId
                            (mkGrade (g_studentId x) (g_evaluationId x) score) = true)
        by exact Ex.
      now rewrite (matches_other _ _ _ _ _ Hne Ex').
    + now rewrite IH.
Qed.

Lemma updated_keys studentId evaluationId score (grades : list Grade) :
  map grade_key (updateCurrentGrades studentId evaluationId score grades)
  = if existsb (matches studentId evaluationId) grades
    then map grade_key grades
    else map grade_key grades ++ [(studentId, evaluationId)].
Proof.
  induction grades as [|x grades IH]; [reflexivity |].
  rewrite updateCurrentGrades_cons. cbn [existsb].
  destruct (matches studentId evaluationId x); cbn [orb map]; [reflexivity |].
  rewrite IH. now destruct (existsb _ grades).
Qed.

Lemma existsb_matches_key studentId evaluationId (grades : list Grade) :
  existsb (matches studentId evaluationId) grades = false ->
  ~ In (studentId, evaluationId) (map grade_key grades).
Proof.
  intros H Hin. apply in_map_iff in Hin. destruct Hin as (g & Hk & Hg).
  assert (E : existsb (matches studentId evaluationId) grades = true).
  { apply existsb_exists. exists g. split; [exact Hg | now apply matches_key]. }
  congruence.
Qed.

Lemma existsb_getGrade studentId evaluationId (grades : list Grade) :
  existsb (matches studentId evaluationId) grades = true
  <-> getGrade grades studentId evaluationId <> None.
Proof.
  rewrite getGrade_find. induction grades as [|x grades IH]; cbn [existsb find].
  - split; [discriminate | congruence].
  - destruct (matches studentId evaluationId x); cbn [orb]; [| exact IH].
    split; [discriminate | reflexivity].
Qed.

Lemma update_appends_when_absent studentId evaluationId score (grades : list Grade) :
  getGrade grades studentId evaluationId = None ->
  updateCurrentGrades studentId evaluationId score grades
  = grades ++ [mkGrade studentId evaluationId score].
Proof.
  intros Hnone. unfold updateCurrentGrades. cbv zeta.
  rewrite getGrade_find in Hnone.
  assert (F : findIndex (matches studentId evaluationId) grades = None).
  { induction grades as [|x grades IH]; [reflexivity |].
    cbn [find findIndex] in *. destruct (matches _ _ x); [discriminate |].
    now rewrite IH. }
  now rewrite F.
Qed.

(** X4: After [handleUpdateGrade] the grade of the student for the evaluation
    is found with the new score, the grade found for any other pair is the
    one found before, distinct keys stay distinct, and the list grows, by
    one grade at its end, only when no grade was found for the pair. *)
Theorem updated_grade_is_found_others_kept :
  forall (grades : list Grade) (studentId evaluationId : string) (score : option Q),
    let updated := updateCurrentGrades studentId evaluationId score grades in
    (exists g,
        getGrade updated studentId evaluationId = Some g
        /\ g_score g = score /\ grade_key g = (studentId, evaluationId))
    /\ (forall studentId' evaluationId',
           (studentId', evaluationId') <> (studentId, evaluationId) ->
           getGrade updated studentId' evaluationId'
           = getGrade grades studentId' evaluationId')
    /\ (NoDup (map grade_key grades) -> NoDup (map grade_key updated))
    /\ (getGrade grades studentId evaluationId = None ->
        updated = grades ++ [mkGrade studentId evaluationId score])
    /\ (getGrade grades studentId evaluationId <> None ->
        List.length updated = List.length grades).
Proof.
  intros grades studentId evaluationId score updated. unfold updated.
  split; [apply updated_grade_found | split; [| split; [| split]]].
  - intros studentId' evaluationId'. apply other_grades_kept.
  - intros Hnd. rewrite updated_keys.
    destruct (existsb _ grades) eqn:E; [exact Hnd |].
    apply NoDup_app; [exact Hnd | repeat constructor; intros [] |].
    intros k Hk [<- | []]. now apply (existsb_matches_key _ _ _ E).
  - apply update_appends_when_absent.
  - intros Hsome. apply existsb_getGrade in Hsome.
    rewrite <- (length_map grade_key), updated_keys, Hsome. apply length_map.
Qed.

Lemma updated_grade_is_found_others_kept_witness :
  getGrade (updateCurrentGrades "V-1" "eval-1" (Some 12) Scenario.two_grades)
           "V-2" "eval-1"
  = getGrade Scenario.two_grades "V-2" "eval-1"
  /\ List.length (updateCurrentGrades "V-1" "eval-1" (Some 12) Scenario.two_grades)
     = List.length Scenario.two_grades.
Proof.
  destruct (updated_grade_is_found_others_kept Scenario.two_grades
              "V-1"%string "eval-1"%string (Some 12)) as (_ & Hother & _ & _ & Hlen).
  split.
  - apply Hother. discriminate.
  - apply Hlen. discriminate.
Defined.

Lemma clamp_bounds (x : Q) :
  0 <= JS.Qmax 0 (JS.Qmin 20 x) <= 20
  /\ (0 <= x <= 20 -> JS.Qmax 0 (JS.Qmin 20 x) == x)
  /\ (x < 0 -> JS.Qmax 0 (JS.Qmin 20 x) = 0)
  /\ (20 < x -> JS.Qmax 0 (JS.Qmin 20 x) = 20).
Proof.
  unfold JS.Qmax, JS.Qmin.
  destruct (JS.ltb x 20) eqn:Ehi.
  - apply ltb_lt in Ehi. destruct (JS.ltb 0 x) eqn:Elo.
    + apply ltb_lt in Elo. repeat split; intros; try lra.
    + apply ltb_ge in Elo. repeat split; intros; try lra; reflexivity.
  - apply ltb_ge in Ehi. replace (JS.ltb 0 20) with true by reflexivity.
    repeat split; intros; try lra; reflexivity.
Qed.

(** X5: A score typed into the table is stored between 0 and 20: an empty
    input gives no score, a number in the range is kept, a negative one
    becomes 0 and one above 20 becomes 20; so, once stored by
    [handleUpdateGrade], all scores stay between 0 and 20. *)
Theorem typed_score_is_kept_in_range :
  onChange_score None = None
  /\ (forall x, exists s,
         onChange_score (Some x) = Some s
         /\ 0 <= s <= 20
         /\ (0 <= x <= 20 -> s == x)
         /\ (x < 0 -> s = 0)
         /\ (20 < x -> s = 20))
  /\ (forall (grades : list Grade) (studentId evaluationId : string) (val : option Q),
         Forall score_in_range grades ->
         Forall score_in_range
                (updateCurrentGrades studentId evaluationId (onChange_score val) grades)).
Proof.
  split; [reflexivity | split].
  - intros x. eexists. split; [reflexivity |]. apply clamp_bounds.
  - intros grades studentId evaluationId val Hall.
    assert (Hnew : forall sid eid, score_in_range (mkGrade sid eid (onChange_score val))).
    { intros sid eid. unfold score_in_range. cbn [g_score].
      destruct val as [x|]; cbn [onChange_score]; [apply clamp_bounds | exact I]. }
    induction Hall as [|g grades Hg Hrest IH].
    + rewrite updateCurrentGrades_nil. constructor; [apply Hnew | constructor].
    + rewrite updateCurrentGrades_cons. destruct (matches _ _ g).
      * constructor; [apply Hnew | exact Hrest].
      * now constructor.
Qed.

Lemma typed_score_is_kept_in_range_witness :
  (exists s, onChange_score (Some (45 # 2)) = Some s /\ s = 20)
  /\ Forall score_in_range
            (updateCurrentGrades "V-1" "eval-1" (onChange_score (Some (45 # 2)))
                                 Scenario.two_grades).
Proof.
  destruct typed_score_is_kept_in_range as (_ & Hclamp & Hall).
  split.
  - destruct (Hclamp (45 # 2)) as (s & Hs & _ & _ & _ & Hhigh).
    exists s. split; [exact Hs |]. apply Hhigh. reflexivity.
  - apply Hall. repeat constructor; cbn; discriminate.
Defined.

(** ** The grades shown and the grades stored *)

Lemma join_at_most_once (subjectId : string) (g : Grade) (evs : list Evaluation) :
  NoDup (map ev_id evs) ->
  map (fun _ : Evaluation => g) (filter (joins subjectId g) evs)
  = if existsb (joins subjectId g) evs then [g] else [].
Proof.
  induction evs as [|e evs IH]; cbn [map filter existsb]; intros Hnd; [reflexivity |].
  apply NoDup_cons_iff in Hnd. destruct Hnd as [Hfresh Hnd].
  destruct (joins subjectId g e) eqn:Ee; cbn [orb map]; [| now apply IH].
  rewrite (IH Hnd). destruct (existsb (joins subjectId g) evs) eqn:Ex; [| reflexivity].
  exfalso. apply Hfresh. apply existsb_exists in Ex. destruct Ex as (e' & He' & Ee').
  unfold joins in Ee, Ee'. apply andb_true_iff in Ee, Ee'.
  destruct Ee as [Ee _], Ee' as [Ee' _]. apply String.eqb_eq in Ee, Ee'.
  rewrite <- Ee, Ee'. now apply in_map.
Qed.

Lemma dbGetGradesForSubject_filter (db : Db) (subjectId : string) :
  NoDup (map ev_id (db_evaluations db)) ->
  dbGetGradesForSubject db subjectId
  = filter (fun g => existsb (joins subjectId g) (db_evaluations db)) (db_grades db).
Proof.
  intros Hnd. unfold dbGetGradesForSubject.
  induction (db_grades db) as [|g grades IH]; cbn [flat_map filter]; [reflexivity |].
  rewrite IH. fold (joins subjectId g). rewrite (join_at_most_once _ _ _ Hnd).
  now destruct (existsb _ _).
Qed.

(** Keys stay distinct in a part of the grades. *)
Lemma distinct_keys_filter (keep : Grade -> bool) (grades : list Grade) :
  NoDup (map grade_key grades) -> NoDup (map grade_key (filter keep grades)).
Proof.
  induction grades as [|g grades IH]; cbn [map filter]; intros Hnd; [constructor |].
  apply NoDup_cons_iff in Hnd. destruct Hnd as [Hfresh Hnd].
  destruct (keep g); [| now apply IH].
  cbn [map]. constructor; [| now apply IH].
  intros Hin. apply Hfresh. apply in_map_iff in Hin. destruct Hin as (other & Ek & Hother).
  apply filter_In in Hother. apply in_map_iff. exists other. tauto.
Qed.

Lemma update_all_is_update_first studentId evaluationId score (grades : list Grade) :
  NoDup (map grade_key grades) ->
  map (fun g => if matches studentId evaluationId g
                then mkGrade (g_studentId g) (g_evaluationId g) score else g) grades
  = if existsb (matches studentId evaluationId) grades
    then updateCurrentGrades studentId evaluationId score grades
    else grades.
Proof.
  induction grades as [|x grades IH]; cbn [map existsb]; intros Hnd; [reflexivity |].
  apply NoDup_cons_iff in Hnd. destruct Hnd as [Hfresh Hnd].
  rewrite updateCurrentGrades_cons, (IH Hnd).
  destruct (matches studentId evaluationId x) eqn:Ex; cbn [orb].
  - destruct (existsb _ grades) eqn:E; [| reflexivity].
    exfalso. apply Hfresh. apply existsb_exists in E. destruct E as (y & Hy & Ey).
    apply matches_key in Ex, Ey. rewrite Ex, <- Ey. now apply in_map.
  - now destruct (existsb _ grades).
Qed.

(** X6: When the grades shown have a row for the student and the evaluation,
    the grades shown after [handleUpdateGrade] are the grades a reload reads
    from the store after [dbUpdateGrade]; when they have none, the view
    appends a grade that the store does not get. *)
Theorem shown_grades_agree_with_store :
  forall (db : Db) (subjectId studentId evaluationId : string) (score : option Q),
    NoDup (map grade_key (db_grades db)) ->
    NoDup (map ev_id (db_evaluations db)) ->
    let shown := dbGetGradesForSubject db subjectId in
    let reloaded :=
      dbGetGradesForSubject (dbUpdateGrade studentId evaluationId score db) subjectId in
    (getGrade shown studentId evaluationId <> None ->
     reloaded = updateCurrentGrades studentId evaluationId score shown)
    /\ (getGrade shown studentId evaluationId = None ->
        reloaded = shown
        /\ updateCurrentGrades studentId evaluationId score shown
           = shown ++ [mkGrade studentId evaluationId score]).
Proof.
  intros db subjectId studentId evaluationId score Hkeys Hids shown reloaded.
  assert (Hreload : reloaded
                    = map (fun g => if matches studentId evaluationId g
                                    then mkGrade (g_studentId g) (g_evaluationId g) score
                                    else g) shown).
  { unfold reloaded, shown. rewrite !dbGetGradesForSubject_filter by exact Hids.
    cbn [dbUpdateGrade db_grades db_evaluations].
    induction (db_grades db) as [|g grades IH]; [reflexivity |].
    cbn [map filter].
    assert (E : existsb (joins subjectId
                           (if matches studentId evaluationId g
                            then mkGrade (g_studentId g) (g_evaluationId g) score else g))
                        (db_evaluations db)
                = existsb (joins subjectId g) (db_evaluations db)).
    { now destruct (matches studentId evaluationId g). }
    rewrite E. destruct (existsb (joins subjectId g) _); cbn [map]; [f_equal |];
      apply IH; now apply NoDup_cons_iff in Hkeys. }
  assert (Hshown : NoDup (map grade_key shown)).
  { unfold shown. rewrite dbGetGradesForSubject_filter by exact Hids.
    now apply distinct_keys_filter. }
  rewrite Hreload, (update_all_is_update_first _ _ _ _ Hshown).
  split.
  - intros Hsome. apply existsb_getGrade in Hsome. now rewrite Hsome.
  - intros Hnone.
    assert (E : existsb (matches studentId evaluationId) shown = false).
    { apply not_true_iff_false. intros H. apply existsb_getGrade in H. contradiction. }
    rewrite E. split; [reflexivity |].
    now apply update_appends_when_absent.
Qed.

Lemma shown_grades_agree_with_store_witness :
  dbGetGradesForSubject (dbUpdateGrade "V-1" "eval-1" (Some 12) Scenario.classroom)
                        "subject-1"
  = updateCurrentGrades "V-1" "eval-1" (Some 12)
                        (dbGetGradesForSubject Scenario.classroom "subject-1")
  /\ dbGetGradesForSubject (dbUpdateGrade "V-2" "eval-1" (Some 12) Scenario.classroom)
                           "subject-1"
     = dbGetGradesForSubject Scenario.classroom "subject-1".
Proof.
  assert (Hkeys : NoDup (map grade_key (db_grades Scenario.classroom))).
  { repeat constructor. intros []. }
  assert (Hids : NoDup (map ev_id (db_evaluations Scenario.classroom))).
  { repeat constructor. intros []. }
  split.
  - apply (proj1 (shown_grades_agree_with_store Scenario.classroom "subject-1"%string
                    "V-1"%string "eval-1"%string (Some 12) Hkeys Hids)).
    discriminate.
  - apply (proj2 (shown_grades_agree_with_store Scenario.classroom "subject-1"%string
                    "V-2"%string "eval-1"%string (Some 12) Hkeys Hids)).
    reflexivity.
Defined.

(** ** Grade rows in the store *)

Lemma In_enrolled (db : Db) (subjectId : string) (s : Student) :
  In s (dbGetEnrolledStudentsForSubject db subjectId)
  <-> In s (db_students db) /\ In (student_id s, subjectId) (db_enrollments db).
Proof.
  unfold dbGetEnrolledStudentsForSubject. rewrite filter_In, existsb_exists.
  split.
  - intros (Hs & [a b] & He & Hab). split; [exact Hs |].
    apply andb_true_iff in Hab. cbn [fst snd] in Hab. destruct Hab as [Ha Hb].
    apply String.eqb_eq in Ha, Hb. now subst.
  - intros [Hs He]. split; [exact Hs |]. exists (student_id s, subjectId).
    split; [exact He |]. cbn [fst snd]. now rewrite !String.eqb_refl.
Qed.

Lemma dbAddEvaluation_tables (now : Z) name percentage corte subjectId (db : Db) :
  let newEval := mkEvaluation ("eval-" ++ JS.digits now) subjectId corte name percentage in
  let db' := dbAddEvaluation now name percentage corte subjectId db in
  db_students db' = db_students db
  /\ db_enrollments db' = db_enrollments db
  /\ db_evaluations db' = db_evaluations db ++ [newEval]
  /\ db_grades db'
     = db_grades db
       ++ map (fun student => mkGrade (student_id student) (ev_id newEval) None)
              (dbGetEnrolledStudentsForSubject db subjectId).
Proof.
  cbv zeta. unfold dbAddEvaluation. cbv zeta.
  change (dbGetEnrolledStudentsForSubject (mkDb _ _ _ _) subjectId)
    with (dbGetEnrolledStudentsForSubject db subjectId).
  destruct (dbGetEnrolledStudentsForSubject db subjectId) as [|s enrolled];
    cbn [List.length Nat.ltb Nat.leb db_students db_enrollments db_evaluations db_grades map].
  - now rewrite app_nil_r.
  - repeat split.
Qed.

Lemma distinct_students_filter (keep : Student -> bool) (students : list Student) :
  NoDup (map student_id students) -> NoDup (map student_id (filter keep students)).
Proof.
  induction students as [|s students IH]; cbn [map filter]; intros Hnd; [constructor |].
  apply NoDup_cons_iff in Hnd. destruct Hnd as [Hnew Hnd].
  destruct (keep s); [| now apply IH].
  cbn [map]. constructor; [| now apply IH].
  intros Hin. apply Hnew. apply in_map_iff in Hin. destruct Hin as (x & Ex & Hx).
  apply filter_In in Hx. apply in_map_iff. exists x. tauto.
Qed.

Lemma rows_of_new_evaluation (id : string) (students : list Student) :
  NoDup (map student_id students) ->
  NoDup (map grade_key (map (fun student => mkGrade (student_id student) id None) students)).
Proof.
  induction students as [|s students IH]; cbn [map]; intros Hnd; [constructor |].
  apply NoDup_cons_iff in Hnd. destruct Hnd as [Hnew Hnd].
  constructor; [| now apply IH].
  intros Hin. apply Hnew. rewrite map_map in Hin. apply in_map_iff in Hin.
  destruct Hin as (x & Ex & Hx). cbn in Ex. injection Ex as Ex.
  apply in_map_iff. now exists x.
Qed.

Lemma dbAddEvaluation_keys (now : Z) name percentage corte subjectId (db : Db) :
  primary_keys db ->
  new_evaluation_id db ("eval-" ++ JS.digits now) ->
  primary_keys (dbAddEvaluation now name percentage corte subjectId db).
Proof.
  intros (Ks & Ke & Kev & Kg) [Hev Hg].
  destruct (dbAddEvaluation_tables now name percentage corte subjectId db)
    as (Es & Ee & Eev & Eg).
  unfold primary_keys. rewrite Es, Ee, Eev, Eg. repeat split; try assumption.
  - rewrite map_app. apply NoDup_app; [exact Kev | repeat constructor; intros [] |].
    intros id Hin [<- | []]. now apply Hev.
  - rewrite map_app. apply NoDup_app; [exact Kg | |].
    + apply rows_of_new_evaluation. now apply distinct_students_filter.
    + intros k Hin Hrow. apply Hg. rewrite map_map in Hrow.
      apply in_map_iff in Hrow. destruct Hrow as (x & <- & _).
      apply in_map_iff in Hin. destruct Hin as (g & Ek & Hin).
      apply in_map_iff. exists g. split; [| exact Hin].
      unfold grade_key in Ek. cbn in Ek. now injection Ek.
Qed.

Lemma classroom_keys : primary_keys Scenario.classroom.
Proof.
  unfold primary_keys. cbn.
  repeat split; repeat constructor; cbn; intuition discriminate.
Qed.

Lemma classroom_has_no_such_evaluation :
  new_evaluation_id Scenario.classroom "eval-1700000000000".
Proof. split; cbn; intuition discriminate. Qed.

(** X7: With an identifier that the store does not have yet, [dbAddEvaluation]
    appends the new evaluation and gives every student enrolled in the
    subject a grade row without score for it; students, enrollments and the
    grades stored before are kept, the primary keys stay distinct, and a
    store in which grade rows exist exactly for the enrolled students stays
    so. *)
Theorem added_evaluation_gets_grade_rows :
  forall (now : Z) (name : string) (percentage : Q) (corte : Corte)
         (subjectId : string) (db : Db),
    let newEval := mkEvaluation ("eval-" ++ JS.digits now) subjectId corte name percentage in
    let db' := dbAddEvaluation now name percentage corte subjectId db in
    primary_keys db ->
    new_evaluation_id db (ev_id newEval) ->
    db_evaluations db' = db_evaluations db ++ [newEval]
    /\ db_students db' = db_students db
    /\ db_enrollments db' = db_enrollments db
    /\ (forall g, In g (db_grades db) -> In g (db_grades db'))
    /\ (forall s, In s (db_students db) ->
                  In (student_id s, subjectId) (db_enrollments db) ->
                  In (mkGrade (student_id s) (ev_id newEval) None) (db_grades db'))
    /\ primary_keys db'
    /\ (exact_grade_rows db -> exact_grade_rows db').
Proof.
  intros now name percentage corte subjectId db newEval db' Hkeys Hfresh.
  pose proof (dbAddEvaluation_keys now name percentage corte subjectId db Hkeys Hfresh)
    as Hkeys'.
  fold db' in Hkeys'.
  destruct (dbAddEvaluation_tables now name percentage corte subjectId db)
    as (Hs & He & Hev & Hg).
  fold newEval db' in Hs, He, Hev, Hg.
  assert (Hold : forall g, In g (db_grades db) -> In g (db_grades db')).
  { intros g H. rewrite Hg. apply in_or_app. now left. }
  assert (Hnew : forall s, In s (db_students db) ->
                           In (student_id s, subjectId) (db_enrollments db) ->
                           In (mkGrade (student_id s) (ev_id newEval) None) (db_grades db')).
  { intros s Hin Henr. rewrite Hg. apply in_or_app. right.
    apply (in_map (fun student => mkGrade (student_id student) (ev_id newEval) None)).
    now apply In_enrolled. }
  split; [exact Hev | split; [exact Hs | split; [exact He | split; [exact Hold |
    split; [exact Hnew | split; [exact Hkeys' |]]]]]].
  intros [Hcomplete Hstray]. split.
  - intros studentId subjectId' Henr. rewrite He in Henr.
    destruct (Hcomplete _ _ Henr) as [Hknown Hrows].
    split; [now rewrite Hs |].
    intros ev Hin Hsubj. rewrite Hev in Hin. apply in_app_or in Hin.
    destruct Hin as [Hin | [<- | []]].
    + destruct (Hrows ev Hin Hsubj) as (g & Hgin & Hk). exists g. auto.
    + cbn [ev_subjectId newEval] in Hsubj. subst subjectId'.
      destruct Hknown as (s & Hsin & <-).
      eexists. split; [apply (Hnew s Hsin Henr) | reflexivity].
  - intros g Hin. rewrite Hg in Hin. apply in_app_or in Hin. rewrite Hev, He.
    destruct Hin as [Hin | Hin].
    + destruct (Hstray g Hin) as (ev & Hev' & Hid & Henr).
      exists ev. split; [apply in_or_app; now left | auto].
    + apply in_map_iff in Hin. destruct Hin as (s & <- & Hsin).
      apply In_enrolled in Hsin. exists newEval.
      split; [apply in_or_app; right; now left | split; [reflexivity | apply Hsin]].
Qed.

(** X8: [dbDeleteEvaluation] removes the evaluation and, with it, every grade
    of that evaluation; the other evaluations and grades are kept, and a
    store in which grade rows exist exactly for the enrolled students stays
    so. *)
Theorem deleted_evaluation_takes_its_grades :
  forall (evaluationId : string) (db : Db),
    let db' := dbDeleteEvaluation evaluationId db in
    ~ In evaluationId (map ev_id (db_evaluations db'))
    /\ ~ In evaluationId (map g_evaluationId (db_grades db'))
    /\ (forall ev, In ev (db_evaluations db') <->
                   In ev (db_evaluations db) /\ ev_id ev <> evaluationId)
    /\ (forall g, In g (db_grades db') <->
                  In g (db_grades db) /\ g_evaluationId g <> evaluationId)
    /\ (exact_grade_rows db -> exact_grade_rows db').
Proof.
  intros evaluationId db db'.
  assert (Hev : forall ev, In ev (db_evaluations db') <->
                           In ev (db_evaluations db) /\ ev_id ev <> evaluationId).
  { intros ev. unfold db', dbDeleteEvaluation. cbn [db_evaluations].
    rewrite filter_In, negb_true_iff, String.eqb_neq. reflexivity. }
  assert (Hg : forall g, In g (db_grades db') <->
                         In g (db_grades db) /\ g_evaluationId g <> evaluationId).
  { intros g. unfold db', dbDeleteEvaluation. cbn [db_grades].
    rewrite filter_In, negb_true_iff, String.eqb_neq. reflexivity. }
  split; [| split; [| split; [exact Hev | split; [exact Hg |]]]].
  - intros Hin. apply in_map_iff in Hin. destruct Hin as (ev & Hid & Hin).
    apply Hev in Hin. tauto.
  - intros Hin. apply in_map_iff in Hin. destruct Hin as (g & Hid & Hin).
    apply Hg in Hin. tauto.
  - intros [Hcomplete Hstray]. split.
    + intros studentId subjectId Henr.
      destruct (Hcomplete _ _ Henr) as [Hknown Hrows]. split; [exact Hknown |].
      intros ev Hin Hsubj. apply Hev in Hin. destruct Hin as [Hin Hne].
      destruct (Hrows ev Hin Hsubj) as (g & Hgin & Hk).
      exists g. split; [| exact Hk]. apply Hg. split; [exact Hgin |].
      unfold grade_key in Hk. injection Hk as _ Hk. congruence.
    + intros g Hin. apply Hg in Hin. destruct Hin as [Hin Hne].
      destruct (Hstray g Hin) as (ev & Hevin & Hid & Henr).
      exists ev. split; [| auto]. apply Hev. split; [exact Hevin | congruence].
Qed.

Lemma classroom_rows_exact : exact_grade_rows Scenario.classroom.
Proof.
  split.
  - intros studentId subjectId [H | []]. injection H as <- <-. split.
    + exists Scenario.ana. split; [now left | reflexivity].
    + intros ev [<- | []] _. eexists. split; [now left | reflexivity].
  - intros g [<- | []]. exists Scenario.quiz.
    split; [now left | split; [reflexivity | now left]].
Qed.

Lemma added_evaluation_gets_grade_rows_witness :
  In (mkGrade "V-1" "eval-1700000000000" None)
     (db_grades (dbAddEvaluation 1700000000000 "Taller" 10 Corte2 "subject-1"
                                 Scenario.classroom))
  /\ exact_grade_rows (dbAddEvaluation 1700000000000 "Taller" 10 Corte2 "subject-1"
                                       Scenario.classroom).
Proof.
  destruct (added_evaluation_gets_grade_rows 1700000000000 "Taller"%string 10 Corte2
              "subject-1"%string Scenario.classroom
              classroom_keys classroom_has_no_such_evaluation)
    as (_ & _ & _ & _ & Hnew & _ & Hexact).
  split.
  - apply (Hnew Scenario.ana); now left.
  - apply Hexact, classroom_rows_exact.
Defined.

Lemma deleted_evaluation_takes_its_grades_witness :
  In Scenario.quiz (db_evaluations (dbDeleteEvaluation "eval-9" Scenario.classroom))
  /\ exact_grade_rows (dbDeleteEvaluation "eval-1" Scenario.classroom).
Proof.
  split.
  - apply (proj1 (proj2 (proj2 (deleted_evaluation_takes_its_grades
                                  "eval-9"%string Scenario.classroom)))).
    split; [now left | discriminate].
  - apply (proj2 (proj2 (proj2 (proj2 (deleted_evaluation_takes_its_grades
                                         "eval-1"%string Scenario.classroom))))).
    apply classroom_rows_exact.
Defined.

(** *** Enrolling students *)

Lemma replace_student_In (s : Student) (students : list Student) (x : Student) :
  In x (replace_student s students)
  <-> (In x students /\ student_id x <> student_id s) \/ x = s.
Proof.
  unfold replace_student. rewrite in_app_iff, filter_In, negb_true_iff, String.eqb_neq.
  cbn [In]. intuition (subst; auto).
Qed.

Lemma replace_student_keeps_ids (s : Student) (students : list Student) (k : string) :
  (exists x, In x students /\ student_id x = k) ->
  exists x, In x (replace_student s students) /\ student_id x = k.
Proof.
  intros (x & Hx & Hk).
  destruct (String.eqb_spec (student_id x) (student_id s)) as [E | E].
  - exists s. split; [apply replace_student_In; now right | congruence].
  - exists x. split; [apply replace_student_In; left; auto | exact Hk].
Qed.

Lemma replaced_students_ids (sts students : list Student) (k : string) :
  (exists x, In x students /\ student_id x = k)
  \/ (exists x, In x sts /\ student_id x = k) ->
  exists x, In x (fold_left (fun acc s => replace_student s acc) sts students)
            /\ student_id x = k.
Proof.
  revert students. induction sts as [|s sts IH]; intros students H; cbn [fold_left].
  - destruct H as [H | (x & [] & _)]. exact H.
  - apply IH. destruct H as [H | (x & [<- | Hx] & Hk)].
    + left. now apply replace_student_keeps_ids.
    + left. exists s. split; [apply replace_student_In; now right | exact Hk].
    + right. exists x. auto.
Qed.

Lemma ignore_or_enroll_In studentId subjectId (enrollments : list (string * string))
      (e : string * string) :
  In e (ignore_or_enroll studentId subjectId enrollments)
  <-> In e enrollments \/ e = (studentId, subjectId).
Proof.
  unfold ignore_or_enroll.
  destruct (existsb _ enrollments) eqn:E.
  - split; [now left |]. intros [H | ->]; [exact H |].
    apply existsb_exists in E. destruct E as ([a b] & He & Hab).
    apply andb_true_iff in Hab. cbn [fst snd] in Hab. destruct Hab as [Ha Hb].
    apply String.eqb_eq in Ha, Hb. now subst.
  - rewrite in_app_iff. cbn [In]. intuition.
Qed.

Lemma enrolled_pairs (sts : list Student) subjectId (enrollments : list (string * string))
      (e : string * string) :
  In e (fold_left (fun acc s => ignore_or_enroll (student_id s) subjectId acc)
                  sts enrollments)
  <-> In e enrollments \/ exists s, In s sts /\ e = (student_id s, subjectId).
Proof.
  revert enrollments. induction sts as [|s sts IH]; intros enrollments; cbn [fold_left].
  - split; [now left | intros [H | (s & [] & _)]; exact H].
  - rewrite IH, ignore_or_enroll_In. split.
    + intros [[H | ->] | (x & Hx & ->)]; [now left | right | right].
      * exists s. split; [now left | reflexivity].
      * exists x. split; [now right | reflexivity].
    + intros [H | (x & [<- | Hx] & ->)]; [left; now left | left; now right | right].
      exists x. auto.
Qed.

Lemma ignore_or_grade_In studentId evaluationId (grades : list Grade) (g : Grade) :
  (In g grades -> In g (ignore_or_grade studentId evaluationId grades))
  /\ (In g (ignore_or_grade studentId evaluationId grades) ->
      In g grades \/ g = mkGrade studentId evaluationId None)
  /\ exists row, In row (ignore_or_grade studentId evaluationId grades)
                 /\ grade_key row = (studentId, evaluationId).
Proof.
  unfold ignore_or_grade. destruct (existsb _ grades) eqn:E.
  - split; [auto | split; [auto |]].
    apply existsb_exists in E. destruct E as (row & Hrow & Hk).
    exists row. split; [exact Hrow | now apply matches_key].
  - split; [intros H; apply in_or_app; now left | split].
    + intros H. apply in_app_or in H. destruct H as [H | [<- | []]]; auto.
    + eexists. split; [apply in_or_app; right; now left | reflexivity].
Qed.

(** The grade rows requested for the students in [sts] and the evaluations
    in [evs]. *)
Lemma enrolled_grades (sts : list Student) (evs : list Evaluation) (grades : list Grade) :
  let result :=
    fold_left (fun acc student =>
                 fold_left (fun acc ev =>
                              ignore_or_grade (student_id student) (ev_id ev) acc)
                           evs acc)
              sts grades in
  (forall g, In g grades -> In g result)
  /\ (forall g, In g result ->
                In g grades
                \/ exists s ev, In s sts /\ In ev evs
                                /\ g = mkGrade (student_id s) (ev_id ev) None)
  /\ (forall s ev, In s sts -> In ev evs ->
                   exists row, In row result
                               /\ grade_key row = (student_id s, ev_id ev)).
Proof.
  assert (Inner : forall (studentId : string) evs0 acc,
             let result := fold_left (fun acc ev => ignore_or_grade studentId (ev_id ev) acc)
                                     evs0 acc in
             (forall g, In g acc -> In g result)
             /\ (forall g, In g result ->
                           In g acc \/ exists ev, In ev evs0
                                                  /\ g = mkGrade studentId (ev_id ev) None)
             /\ (forall ev, In ev evs0 ->
                            exists row, In row result
                                        /\ grade_key row = (studentId, ev_id ev))).
  { intros studentId evs0. induction evs0 as [|ev evs0 IH]; intros acc; cbn [fold_left].
    - cbv zeta. split; [auto | split; [auto | intros ev []]].
    - cbv zeta in *.
      destruct (IH (ignore_or_grade studentId (ev_id ev) acc)) as (Hkeep & Honly & Hrow).
      split; [| split].
      + intros g Hg. apply Hkeep. now apply ignore_or_grade_In.
      + intros g Hg. destruct (Honly g Hg) as [H | (ev' & Hev' & ->)].
        * apply ignore_or_grade_In in H. destruct H as [H | ->]; [now left | right].
          exists ev. split; [now left | reflexivity].
        * right. exists ev'. split; [now right | reflexivity].
      + intros ev' [<- | Hev'].
        * destruct (ignore_or_grade_In studentId (ev_id ev) acc
                                       (mkGrade studentId (ev_id ev) None))
            as (_ & _ & row & Hin & Hk).
          exists row. split; [now apply Hkeep | exact Hk].
        * now apply Hrow. }
  revert grades. induction sts as [|s sts IH]; intros grades; cbn [fold_left]; cbv zeta.
  - split; [auto | split; [auto | intros s ev []]].
  - cbv zeta in IH.
    destruct (Inner (student_id s) evs grades) as (Ikeep & Ionly & Irow).
    cbv zeta in Ikeep, Ionly, Irow.
    destruct (IH (fold_left (fun acc ev => ignore_or_grade (student_id s) (ev_id ev) acc)
                            evs grades)) as (Hkeep & Honly & Hrow).
    split; [| split].
    + intros g Hg. now apply Hkeep, Ikeep.
    + intros g Hg. destruct (Honly g Hg) as [H | (s' & ev & Hs' & Hev & ->)].
      * destruct (Ionly g H) as [H' | (ev & Hev & ->)]; [now left | right].
        exists s, ev. split; [now left | auto].
      * right. exists s', ev. split; [now right | auto].
    + intros s' ev [<- | Hs'] Hev.
      * destruct (Irow ev Hev) as (row & Hin & Hk).
        exists row. split; [now apply Hkeep | exact Hk].
      * now apply Hrow.
Qed.

Lemma fold_left_constant {A B : Type} (l : list B) (a : A) :
  fold_left (fun acc _ => acc) l a = a.
Proof. induction l as [|x l IH]; cbn [fold_left]; auto. Qed.

Lemma dbEnrollStudents_tables (sts : list Student) (subjectId : string) (db : Db) :
  let db' := dbEnrollStudents sts subjectId db in
  db_students db'
  = fold_left (fun acc s => replace_student s acc) sts (db_students db)
  /\ db_enrollments db'
     = fold_left (fun acc s => ignore_or_enroll (student_id s) subjectId acc)
                 sts (db_enrollments db)
  /\ db_evaluations db' = db_evaluations db
  /\ db_grades db'
     = fold_left (fun acc student =>
                    fold_left (fun acc ev =>
                                 ignore_or_grade (student_id student) (ev_id ev) acc)
                              (dbGetEvaluationsForSubject db subjectId) acc)
                 sts (db_grades db).
Proof.
  cbv zeta. unfold dbEnrollStudents, dbAddOrUpdateStudents. cbv zeta.
  cbn [db_students db_enrollments db_evaluations db_grades].
  change (dbGetEvaluationsForSubject (mkDb _ _ (db_evaluations db) _) subjectId)
    with (dbGetEvaluationsForSubject db subjectId).
  destruct (dbGetEvaluationsForSubject db subjectId) as [|ev evs];
    cbn [List.length Nat.ltb Nat.leb db_students db_enrollments db_evaluations db_grades].
  - repeat split. cbn [fold_left]. now rewrite fold_left_constant.
  - repeat split.
Qed.

Lemma isEnrolled_In studentId subjectId (enrollments : list (string * string)) :
  existsb (fun e => String.eqb (fst e) studentId && String.eqb (snd e) subjectId)
          enrollments = true
  <-> In (studentId, subjectId) enrollments.
Proof.
  rewrite existsb_exists. split.
  - intros ([a b] & He & Hab). apply andb_true_iff in Hab. cbn [fst snd] in Hab.
    destruct Hab as [Ha Hb]. apply String.eqb_eq in Ha, Hb. now subst.
  - intros H. exists (studentId, subjectId). split; [exact H |].
    cbn [fst snd]. now rewrite !String.eqb_refl.
Qed.

(** X9: [dbEnrollStudents] keeps the evaluations and the grades stored, adds
    exactly the enrollments asked for, and gives each of the students a row
    in the table of students and a grade row for every evaluation of the
    subject; a store in which grade rows exist exactly for the enrolled
    students stays so. *)
Theorem enrolled_students_get_grade_rows :
  forall (studentsToEnroll : list Student) (subjectId : string) (db : Db),
    let db' := dbEnrollStudents studentsToEnroll subjectId db in
    db_evaluations db' = db_evaluations db
    /\ (forall e, In e (db_enrollments db')
                  <-> In e (db_enrollments db)
                      \/ exists s, In s studentsToEnroll /\ e = (student_id s, subjectId))
    /\ (forall g, In g (db_grades db) -> In g (db_grades db'))
    /\ (forall s, In s studentsToEnroll ->
                  exists x, In x (db_students db') /\ student_id x = student_id s)
    /\ (forall s ev, In s studentsToEnroll -> In ev (db_evaluations db) ->
                     ev_subjectId ev = subjectId ->
                     has_grade_row db' (student_id s) (ev_id ev))
    /\ (exact_grade_rows db -> exact_grade_rows db').
Proof.
  intros sts subjectId db db'.
  destruct (dbEnrollStudents_tables sts subjectId db) as (Hs & He & Hev & Hg).
  fold db' in Hs, He, Hev, Hg.
  destruct (enrolled_grades sts (dbGetEvaluationsForSubject db subjectId) (db_grades db))
    as (Gkeep & Gonly & Grow).
  cbv zeta in Gkeep, Gonly, Grow. rewrite <- Hg in Gkeep, Gonly, Grow.
  assert (Hsubj : forall ev, In ev (dbGetEvaluationsForSubject db subjectId)
                             <-> In ev (db_evaluations db) /\ ev_subjectId ev = subjectId).
  { intros ev. unfold dbGetEvaluationsForSubject. now rewrite filter_In, String.eqb_eq. }
  assert (Henr : forall e, In e (db_enrollments db')
                           <-> In e (db_enrollments db)
                               \/ exists s, In s sts /\ e = (student_id s, subjectId)).
  { intros e. rewrite He. apply enrolled_pairs. }
  assert (Hknown : forall k, (exists x, In x (db_students db) /\ student_id x = k)
                             \/ (exists x, In x sts /\ student_id x = k) ->
                             exists x, In x (db_students db') /\ student_id x = k).
  { intros k H. rewrite Hs. now apply replaced_students_ids. }
  assert (Hrows : forall s ev, In s sts -> In ev (db_evaluations db) ->
                               ev_subjectId ev = subjectId ->
                               has_grade_row db' (student_id s) (ev_id ev)).
  { intros s ev Hsin Hevin Hsub. apply Grow; [exact Hsin | now apply Hsubj]. }
  split; [exact Hev | split; [exact Henr | split; [exact Gkeep | split; [| split;
    [exact Hrows |]]]]].
  - intros s Hsin. apply Hknown. right. exists s. auto.
  - intros [Hcomplete Hstray]. split.
    + intros studentId subjectId' Hin. apply Henr in Hin.
      destruct Hin as [Hin | (s & Hsin & E)].
      * destruct (Hcomplete _ _ Hin) as [Hk Hr]. split; [apply Hknown; now left |].
        intros ev Hevin Hsub. rewrite Hev in Hevin.
        destruct (Hr ev Hevin Hsub) as (g & Hgin & Hkey). exists g. auto.
      * injection E as -> ->. split; [apply Hknown; right; exists s; auto |].
        intros ev Hevin Hsub. rewrite Hev in Hevin. now apply Hrows.
    + intros g Hgin. rewrite Hev. destruct (Gonly g Hgin) as [Hold | (s & ev & Hsin & Hevin & ->)].
      * destruct (Hstray g Hold) as (ev & Hevin & Hid & Hin).
        exists ev. split; [exact Hevin | split; [exact Hid |]]. apply Henr. now left.
      * apply Hsubj in Hevin. destruct Hevin as [Hevin Hsub]. exists ev.
        split; [exact Hevin | split; [reflexivity |]].
        apply Henr. right. exists s. cbn [g_studentId]. rewrite Hsub. auto.
Qed.

Lemma enrolled_students_get_grade_rows_witness :
  has_grade_row (dbEnrollStudents [Scenario.luis] "subject-1" Scenario.classroom)
                "V-2" "eval-1"
  /\ exact_grade_rows (dbEnrollStudents [Scenario.luis] "subject-1" Scenario.classroom).
Proof.
  destruct (enrolled_students_get_grade_rows [Scenario.luis] "subject-1"%string
              Scenario.classroom) as (_ & _ & _ & _ & Hrows & Hexact).
  split.
  - apply (Hrows Scenario.luis Scenario.quiz); [now left | now left | reflexivity].
  - apply Hexact, classroom_rows_exact.
Defined.

(** X10: [dbEnrollStudent] refuses a student who is enrolled in the subject and
    leaves the store as it is; otherwise it enrolls the student as
    [dbEnrollStudents] does, after which a second attempt is refused. *)
Theorem enrolling_twice_is_refused :
  forall (s : Student) (subjectId : string) (db : Db),
    (In (student_id s, subjectId) (db_enrollments db) ->
     dbEnrollStudent s subjectId db = (false, db))
    /\ (~ In (student_id s, subjectId) (db_enrollments db) ->
        dbEnrollStudent s subjectId db = (true, dbEnrollStudents [s] subjectId db)
        /\ In (student_id s, subjectId)
              (db_enrollments (snd (dbEnrollStudent s subjectId db))))
    /\ dbEnrollStudent s subjectId (snd (dbEnrollStudent s subjectId db))
       = (false, snd (dbEnrollStudent s subjectId db)).
Proof.
  intros s subjectId db.
  assert (Hyes : forall d, In (student_id s, subjectId) (db_enrollments d) ->
                           dbEnrollStudent s subjectId d = (false, d)).
  { intros d H. unfold dbEnrollStudent. cbv zeta.
    apply isEnrolled_In in H. now rewrite H. }
  assert (Hno : ~ In (student_id s, subjectId) (db_enrollments db) ->
                dbEnrollStudent s subjectId db = (true, dbEnrollStudents [s] subjectId db)).
  { intros H. unfold dbEnrollStudent. cbv zeta.
    destruct (existsb _ (db_enrollments db)) eqn:E; [| reflexivity].
    apply isEnrolled_In in E. contradiction. }
  assert (Hin : In (student_id s, subjectId)
                   (db_enrollments (dbEnrollStudents [s] subjectId db))).
  { destruct (dbEnrollStudents_tables [s] subjectId db) as (_ & He & _).
    rewrite He. apply enrolled_pairs. right. exists s. split; [now left | reflexivity]. }
  split; [apply Hyes | split].
  - intros H. rewrite (Hno H). split; [reflexivity | exact Hin].
  - destruct (existsb (fun e => String.eqb (fst e) (student_id s)
                                 && String.eqb (snd e) subjectId)
                       (db_enrollments db)) eqn:E.
    + apply isEnrolled_In in E. rewrite (Hyes db E). cbn [snd]. now apply Hyes.
    + assert (H : ~ In (student_id s, subjectId) (db_enrollments db)).
      { intros H. apply isEnrolled_In in H. congruence. }
      rewrite (Hno H). cbn [snd]. now apply Hyes.
Qed.

Lemma enrolling_twice_is_refused_witness :
  dbEnrollStudent Scenario.ana "subject-1" Scenario.classroom = (false, Scenario.classroom)
  /\ fst (dbEnrollStudent Scenario.luis "subject-1" Scenario.classroom) = true.
Proof.
  destruct (enrolling_twice_is_refused Scenario.ana "subject-1"%string Scenario.classroom)
    as (Hyes & _ & _).
  destruct (enrolling_twice_is_refused Scenario.luis "subject-1"%string Scenario.classroom)
    as (_ & Hno & _).
  split.
  - apply Hyes. now left.
  - destruct Hno as [E _].
    + intros [H | []]. discriminate H.
    + now rewrite E.
Defined.

(** *** The primary keys *)

Lemma replace_student_keys (s : Student) (students : list Student) :
  NoDup (map student_id students) ->
  NoDup (map student_id (replace_student s students)).
Proof.
  intros Hnd. unfold replace_student. rewrite map_app.
  apply NoDup_app; [now apply distinct_students_filter | repeat constructor; intros [] |].
  intros id Hin [<- | []]. apply in_map_iff in Hin. destruct Hin as (x & Ex & Hx).
  apply filter_In in Hx. destruct Hx as [_ Hx].
  apply negb_true_iff, String.eqb_neq in Hx. now apply Hx.
Qed.

Lemma ignore_or_enroll_keys studentId subjectId (enrollments : list (string * string)) :
  NoDup enrollments -> NoDup (ignore_or_enroll studentId subjectId enrollments).
Proof.
  intros Hnd. unfold ignore_or_enroll.
  destruct (existsb _ enrollments) eqn:E; [exact Hnd |].
  apply NoDup_app; [exact Hnd | repeat constructor; intros [] |].
  intros e Hin [<- | []].
  apply isEnrolled_In in Hin. congruence.
Qed.

Lemma ignore_or_grade_keys studentId evaluationId (grades : list Grade) :
  NoDup (map grade_key grades) ->
  NoDup (map grade_key (ignore_or_grade studentId evaluationId grades)).
Proof.
  intros Hnd. unfold ignore_or_grade.
  destruct (existsb (matches studentId evaluationId) grades) eqn:E; [exact Hnd |].
  rewrite map_app. apply NoDup_app; [exact Hnd | repeat constructor; intros [] |].
  intros k Hin [<- | []]. apply in_map_iff in Hin. destruct Hin as (g & Ek & Hin).
  assert (Hex : existsb (matches studentId evaluationId) grades = true).
  { apply existsb_exists. exists g. split; [exact Hin | now apply matches_key]. }
  congruence.
Qed.

Lemma dbEnrollStudents_keys (sts : list Student) (subjectId : string) (db : Db) :
  primary_keys db -> primary_keys (dbEnrollStudents sts subjectId db).
Proof.
  intros (Ks & Ke & Kev & Kg).
  destruct (dbEnrollStudents_tables sts subjectId db) as (Es & Ee & Eev & Eg).
  unfold primary_keys. rewrite Es, Ee, Eev, Eg. clear Es Ee Eev Eg.
  split; [| split; [| split; [exact Kev |]]].
  - revert Ks. generalize (db_students db).
    induction sts as [|s sts IH]; intros students Hnd; cbn [fold_left]; [exact Hnd |].
    now apply IH, replace_student_keys.
  - revert Ke. generalize (db_enrollments db).
    induction sts as [|s sts IH]; intros enrollments Hnd; cbn [fold_left]; [exact Hnd |].
    now apply IH, ignore_or_enroll_keys.
  - revert Kg. generalize (db_grades db). generalize (dbGetEvaluationsForSubject db subjectId).
    intros evs.
    assert (Hrow : forall (s : Student) grades,
               NoDup (map grade_key grades) ->
               NoDup (map grade_key
                          (fold_left (fun acc ev =>
                                        ignore_or_grade (student_id s) (ev_id ev) acc)
                                     evs grades))).
    { intros s. induction evs as [|ev evs IHev]; intros grades Hnd; cbn [fold_left];
        [exact Hnd |].
      now apply IHev, ignore_or_grade_keys. }
    induction sts as [|s sts IH]; intros grades Hnd; cbn [fold_left]; [exact Hnd |].
    now apply IH, Hrow.
Qed.

(** X11: The operations of the store never leave two rows with one primary key:
    deleting an evaluation, enrolling students, one or many, whether or not
    they are known or enrolled already, and storing a score keep the
    identifiers of the students, the enrollments, the identifiers of the
    evaluations and the pairs of student and evaluation of the grades
    distinct. *)
Theorem store_keeps_primary_keys :
  forall db : Db,
    primary_keys db ->
    (forall evaluationId, primary_keys (dbDeleteEvaluation evaluationId db))
    /\ (forall studentsToEnroll subjectId,
           primary_keys (dbEnrollStudents studentsToEnroll subjectId db))
    /\ (forall studentToEnroll subjectId,
           primary_keys (snd (dbEnrollStudent studentToEnroll subjectId db)))
    /\ (forall studentId evaluationId score,
           primary_keys (dbUpdateGrade studentId evaluationId score db)).
Proof.
  intros db Hkeys. split; [| split; [| split]].
  - intros evaluationId. destruct Hkeys as (Ks & Ke & Kev & Kg).
    unfold primary_keys, dbDeleteEvaluation. cbn [db_students db_enrollments
      db_evaluations db_grades].
    split; [exact Ks | split; [exact Ke | split]].
    + now apply distinct_ids_filter.
    + now apply distinct_keys_filter.
  - intros sts subjectId. now apply dbEnrollStudents_keys.
  - intros s subjectId. unfold dbEnrollStudent.
    destruct (existsb _ (db_enrollments db)); cbn [snd];
      [exact Hkeys | now apply dbEnrollStudents_keys].
  - intros studentId evaluationId score. destruct Hkeys as (Ks & Ke & Kev & Kg).
    unfold primary_keys, dbUpdateGrade. cbn [db_students db_enrollments
      db_evaluations db_grades].
    split; [exact Ks | split; [exact Ke | split; [exact Kev |]]].
    rewrite map_map.
    erewrite map_ext; [exact Kg |].
    intros g. cbv beta. now destruct (matches studentId evaluationId g).
Qed.

Lemma store_keeps_primary_keys_witness :
  primary_keys (dbDeleteEvaluation "eval-1" Scenario.classroom)
  /\ primary_keys (dbEnrollStudents [Scenario.luis; Scenario.ana; Scenario.luis]
                                    "subject-1" Scenario.classroom)
  /\ primary_keys (dbUpdateGrade "V-1" "eval-1" (Some 12) Scenario.classroom).
Proof.
  pose proof (store_keeps_primary_keys Scenario.classroom) as H.
  assert (Hkeys : primary_keys Scenario.classroom).
  { unfold primary_keys. cbn. repeat split; repeat constructor; cbn; intuition discriminate. }
  destruct (H Hkeys) as (Hdel & Henr & _ & Hupd).
  split; [apply Hdel | split; [apply Henr | apply Hupd]].
Defined.

(** ** What an accepted evaluation guarantees *)




Lemma caps_add_up :
  CORTE_PERCENTAGES Corte1 + CORTE_PERCENTAGES Corte2 + CORTE_PERCENTAGES Corte3 == 100.
Proof. reflexivity. Qed.


(** ** Adding an evaluation, from the form to the store *)












(** ** The evaluations grouped by corte *)

Lemma Sorted_weaken {A : Type} (R R' : A -> A -> Prop) (l : list A) :
  (forall a b, R a b -> R' a b) -> Sorted R l -> Sorted R' l.
Proof.
  intros Himp H. induction H as [|a rest _ IH Hhd]; constructor; [exact IH |].
  destruct Hhd; constructor. now apply Himp.
Qed.

Lemma cortes_cover (l : list Evaluation) :
  Permutation (filter (in_corte Corte1) l ++ filter (in_corte Corte2) l
               ++ filter (in_corte Corte3) l) l.
Proof.
  induction l as [|ev l IH]; [constructor |].
  assert (H : forall c, in_corte c ev = corte_eqb (ev_corte ev) c) by reflexivity.
  cbn [filter]. rewrite !H. destruct (ev_corte ev); cbn [corte_eqb].
  - cbn [app]. now constructor.
  - eapply Permutation_trans; [apply Permutation_sym, Permutation_middle |].
    now constructor.
  - rewrite app_assoc.
    eapply Permutation_trans; [apply Permutation_sym, Permutation_middle |].
    rewrite <- app_assoc. now constructor.
Qed.

(** X18: [evaluationsByCorte] puts every evaluation in the list of its corte
    and nowhere else, so the three lists together are the evaluations, none
    lost and none repeated; and when [localeCompare] never orders two names
    both ways, each list is in the order of the names. *)
Theorem evaluations_are_grouped_by_corte :
  forall localeCompare (evaluations : list Evaluation),
    let cortes := evaluationsByCorte localeCompare evaluations in
    Permutation (bc1 cortes ++ bc2 cortes ++ bc3 cortes) evaluations
    /\ (forall corte ev,
           In ev (bc_get cortes corte) <-> In ev evaluations /\ ev_corte ev = corte)
    /\ ((forall a b, (0 < localeCompare a b)%Z -> (localeCompare b a <= 0)%Z) ->
        forall corte,
          Sorted (fun a b => (localeCompare (ev_name a) (ev_name b) <= 0)%Z)
                 (bc_get cortes corte)).
Proof.
  intros localeCompare evaluations cortes.
  assert (Hget : forall corte,
             bc_get cortes corte
             = JS.sort (by_name localeCompare) (filter (in_corte corte) evaluations))
    by (intros corte; apply evaluationsByCorte_get).
  split; [| split].
  - change (bc1 cortes) with (bc_get cortes Corte1).
    change (bc2 cortes) with (bc_get cortes Corte2).
    change (bc3 cortes) with (bc_get cortes Corte3).
    rewrite !Hget.
    eapply Permutation_trans; [| apply cortes_cover].
    repeat apply Permutation_app; apply Permutation_sym, sort_Permutation.
  - intros corte ev. rewrite Hget. split.
    + intros H. apply (Permutation_in _ (Permutation_sym (sort_Permutation _ _))) in H.
      apply filter_In in H. destruct H as [Hin Hc]. split; [exact Hin |].
      unfold in_corte in Hc. destruct (ev_corte ev), corte; (reflexivity || discriminate).
    + intros [Hin <-]. apply (Permutation_in _ (sort_Permutation _ _)).
      apply filter_In. split; [exact Hin |]. unfold in_corte. now destruct (ev_corte ev).
  - intros Htotal corte. rewrite Hget.
    apply Sorted_weaken with (R := fun a b => by_name localeCompare a b <= 0).
    + intros a b H. unfold by_name in H. change 0 with (inject_Z 0) in H.
      now rewrite <- Zle_Qle in H.
    + apply sort_Sorted. intros a b H. unfold by_name in *.
      change 0 with (inject_Z 0) in *. rewrite <- Zlt_Qlt in H. rewrite <- Zle_Qle.
      now apply Htotal.
Qed.

Lemma ascii_order_total (a b : string) :
  (0 < Scenario.ascii_order a b)%Z -> (Scenario.ascii_order b a <= 0)%Z.
Proof.
  unfold Scenario.ascii_order. rewrite (String.compare_antisym a b).
  destruct (String.compare b a); cbn [CompOpp]; lia.
Qed.

Lemma evaluations_are_grouped_by_corte_witness :
  Sorted (fun a b => (Scenario.ascii_order (ev_name a) (ev_name b) <= 0)%Z)
         (bc_get (evaluationsByCorte Scenario.ascii_order Scenario.three_cortes) Corte1).
Proof.
  apply (proj2 (proj2 (evaluations_are_grouped_by_corte
                         Scenario.ascii_order Scenario.three_cortes))).
  exact ascii_order_total.
Defined.

(** ** The e-mail of a corte *)







(** ** The scores of a corte report *)

Lemma report_corteEntry_value evaluations grades (student : Student) (corte : Corte) :
  exists entry,
    report_corteEntry evaluations grades student corte = Some entry
    /\ map ns_name entry
       = if (0 <? List.length (filter (in_corte corte) evaluations))%nat
         then [student_name student] else [].
Proof.
  unfold report_corteEntry. cbv zeta.
  change (filter (fun ev => corte_eqb (ev_corte ev) corte) evaluations)
    with (filter (in_corte corte) evaluations).
  destruct (0 <? List.length (filter (in_corte corte) evaluations))%nat;
    [| eexists; split; reflexivity].
  destruct (JS.ltb 0 _) eqn:E.
  - apply ltb_lt in E.
    edestruct div_by_percentage as (q & Hq & _); [reflexivity | |].
    + intros H. apply Qlt_not_eq in E. apply E. symmetry. exact H.
    + rewrite Hq. eexists. split; reflexivity.
  - eexists. split; reflexivity.
Qed.

(** X20: The report of a corte always gets its list of scores, never dividing
    by zero: one normalized score per student, under the student's name and
    in the order of the students, when the corte has evaluations, and no
    score at all when it has none. *)
Theorem corte_report_has_a_score_per_student :
  forall (students : list Student) (evaluations : list Evaluation)
         (grades : list Grade) (corte : Corte),
  exists scores,
    report_cortes evaluations grades students corte = Some scores
    /\ map ns_name scores
       = if (0 <? List.length (filter (in_corte corte) evaluations))%nat
         then map student_name students else [].
Proof.
  intros students evaluations grades corte.
  induction students as [|s students (others & Hothers & Hnames)]; cbn [report_cortes].
  - exists []. split; [reflexivity | now destruct (0 <? _)%nat].
  - destruct (report_corteEntry_value evaluations grades s corte) as (entry & Hentry & Hname).
    rewrite Hentry, Hothers. exists (entry ++ others). split; [reflexivity |].
    rewrite map_app, Hname, Hnames. now destruct (0 <? _)%nat.
Qed.

(** ** Importing students from a file *)

Lemma split_not_nil (sep : ascii) (s : string) : split sep s <> [].
Proof.
  induction s as [|c s IH]; cbn [split]; [discriminate |].
  destruct (Ascii.eqb c sep); [discriminate |].
  destruct (split sep s); [contradiction | discriminate].
Qed.

Lemma split_without (sep : ascii) (s : string) :
  has_char sep s = false -> split sep s = [s].
Proof.
  induction s as [|c s IH]; cbn [has_char split]; [reflexivity |].
  intros H. apply orb_false_iff in H. destruct H as [Hc Hs].
  rewrite Hc, (IH Hs). reflexivity.
Qed.

Lemma split_at_first (sep : ascii) (a b : string) :
  has_char sep a = false ->
  split sep (a ++ String sep b) = a :: split sep b.
Proof.
  induction a as [|c a IH]; cbn [has_char split append].
  - intros _. now rewrite Ascii.eqb_refl.
  - intros H. apply orb_false_iff in H. destruct H as [Hc Ha].
    rewrite Hc, (IH Ha). reflexivity.
Qed.

Lemma has_char_append (c : ascii) (a b : string) :
  has_char c (a ++ b) = has_char c a || has_char c b.
Proof.
  induction a as [|d a IH]; cbn [has_char append]; [reflexivity |].
  now rewrite IH, orb_assoc.
Qed.

Lemma trim_start_length (s : string) :
  (String.length (trim_start s) <= String.length s)%nat.
Proof.
  induction s as [|c s IH]; cbn [trim_start]; [lia |].
  destruct (is_space c); cbn [String.length] in *; lia.
Qed.

Lemma trim_end_length (s : string) :
  (String.length (trim_end s) <= String.length s)%nat.
Proof.
  induction s as [|c s IH]; cbn [trim_end]; [lia |].
  destruct (trim_end s); [destruct (is_space c) |]; cbn [String.length] in *; lia.
Qed.

Lemma trim_end_keeps_head (c : ascii) (s : string) :
  is_space c = false -> exists kept, trim_end (String c s) = String c kept.
Proof.
  intros Hc. cbn [trim_end]. destruct (trim_end s) as [|d kept].
  - rewrite Hc. now exists EmptyString.
  - now exists (String d kept).
Qed.

(** A string that [trim] leaves as it is begins with a character that is
    not white space. *)
Lemma trimmed_head (f : string) :
  is_empty f = false -> trim f = f ->
  exists c rest, f = String c rest /\ is_space c = false.
Proof.
  destruct f as [|c rest]; [discriminate |]. intros _ Htrim.
  exists c, rest. split; [reflexivity |].
  destruct (is_space c) eqn:Hc; [| reflexivity]. exfalso.
  unfold trim in Htrim. cbn [trim_start] in Htrim. rewrite Hc in Htrim.
  pose proof (trim_end_length (trim_start rest)) as H1.
  pose proof (trim_start_length rest) as H2.
  rewrite Htrim in H1. cbn [String.length] in H1. lia.
Qed.

Lemma not_blank_with_head (c : ascii) (rest : string) :
  is_space c = false -> is_empty (trim (String c rest)) = false.
Proof.
  intros Hc. unfold trim. cbn [trim_start]. rewrite Hc.
  destruct (trim_end_keeps_head c rest Hc) as (kept & ->). reflexivity.
Qed.

Lemma trim_end_twice (s : string) : trim_end (trim_end s) = trim_end s.
Proof.
  induction s as [|c s IH]; [reflexivity |].
  cbn [trim_end]. destruct (trim_end s) as [|d kept] eqn:E.
  - destruct (is_space c) eqn:Hc; [reflexivity |]. cbn [trim_end]. now rewrite Hc.
  - cbn [trim_end] in *. cbn [trim_end]. rewrite IH. reflexivity.
Qed.

Lemma trim_start_head (s : string) :
  match trim_start s with
  | EmptyString => True
  | String c _ => is_space c = false
  end.
Proof.
  induction s as [|c s IH]; cbn [trim_start]; [exact I |].
  destruct (is_space c) eqn:Hc; [exact IH | exact Hc].
Qed.

Lemma trim_twice (s : string) : trim (trim s) = trim s.
Proof.
  unfold trim. pose proof (trim_start_head s) as H.
  destruct (trim_start s) as [|c rest]; [reflexivity |].
  destruct (trim_end_keeps_head c rest H) as (kept & E).
  rewrite E. cbn [trim_start]. rewrite H, <- E. apply trim_end_twice.
Qed.

Lemma nth_trimmed (items : list string) (i : nat) :
  trim (nth i (map trim items) EmptyString) = nth i (map trim items) EmptyString.
Proof.
  revert i. induction items as [|x items IH]; intros i; cbn [map].
  - destruct i; reflexivity.
  - destruct i as [|i]; cbn [nth]; [apply trim_twice | apply IH].
Qed.

(** A student whose three fields are present and without white space at
    their ends. *)
Lemma import_line_fields (index : nat) (line : string) (s : Student) :
  import_line index line = inr s ->
  (is_empty (student_id s) = false /\ trim (student_id s) = student_id s)
  /\ (is_empty (student_name s) = false /\ trim (student_name s) = student_name s)
  /\ (is_empty (student_email s) = false /\ trim (student_email s) = student_email s).
Proof.
  unfold import_line. cbv zeta.
  destruct (is_empty (nth 0 _ _)) eqn:E0; [discriminate |].
  destruct (is_empty (nth 1 _ _)) eqn:E1; [discriminate |].
  destruct (is_empty (nth 2 _ _)) eqn:E2; [discriminate |].
  cbn [orb]. intros H. injection H as <-.
  cbn [student_id student_name student_email].
  repeat split; try assumption; apply nth_trimmed.
Qed.

Lemma import_lines_students (index : nat) (lines : list string) (students : list Student) :
  import_lines index lines = inr students ->
  List.length students = List.length lines
  /\ Forall (fun s =>
               (is_empty (student_id s) = false /\ trim (student_id s) = student_id s)
               /\ (is_empty (student_name s) = false
                   /\ trim (student_name s) = student_name s)
               /\ (is_empty (student_email s) = false
                   /\ trim (student_email s) = student_email s))
            students.
Proof.
  revert index students.
  induction lines as [|line lines IH]; intros index students; cbn [import_lines].
  - intros H. injection H as <-. split; [reflexivity | constructor].
  - destruct (import_line index line) as [message | s] eqn:Eline; [discriminate |].
    destruct (import_lines (S index) lines) as [message | rest] eqn:Erest; [discriminate |].
    intros H. injection H as <-.
    destruct (IH _ _ Erest) as [Hlen Hall].
    split; [cbn [List.length]; congruence |].
    constructor; [now apply (import_line_fields index line) | exact Hall].
Qed.

(** X21: The import of a file of ASCII text refuses a file with at most one line
    that is not blank (the header alone, or nothing); when it succeeds it
    hands over one student per line that is not blank after the header, each
    with an identifier, a name and an e-mail that are not empty and carry no
    white space at their ends. *)
Theorem imported_students_have_their_fields :
  forall text : string,
    ascii_only text = true ->
    ((List.length (import_file_lines text) <= 1)%nat ->
     handleFileChange text
     = inl "El archivo CSV está vacío o solo contiene la cabecera."%string)
    /\ (forall students,
           handleFileChange text = inr students ->
           S (List.length students) = List.length (import_file_lines text)
           /\ Forall (fun s =>
                        (is_empty (student_id s) = false
                         /\ trim (student_id s) = student_id s)
                        /\ (is_empty (student_name s) = false
                            /\ trim (student_name s) = student_name s)
                        /\ (is_empty (student_email s) = false
                            /\ trim (student_email s) = student_email s))
                     students).
Proof.
  intros text _. unfold handleFileChange. cbv zeta. split.
  - intros H. apply Nat.leb_le in H. now rewrite H.
  - intros students. destruct (List.length (import_file_lines text) <=? 1)%nat eqn:E;
      [discriminate |].
    intros H. apply import_lines_students in H. destruct H as [Hlen Hall].
    split; [| exact Hall].
    apply Nat.leb_gt in E. rewrite Hlen, length_skipn. lia.
Qed.

Lemma imported_students_have_their_fields_witness :
  handleFileChange "cedula,nombre,correo"
  = inl "El archivo CSV está vacío o solo contiene la cabecera."%string
  /\ S (List.length [Scenario.ana; Scenario.luis])
     = List.length (import_file_lines
                      (students_file "cedula,nombre,correo" [Scenario.ana; Scenario.luis])).
Proof.
  split.
  - apply (proj1 (imported_students_have_their_fields
                    "cedula,nombre,correo"%string eq_refl)).
    vm_compute. lia.
  - apply (proj2 (imported_students_have_their_fields
                    (students_file "cedula,nombre,correo" [Scenario.ana; Scenario.luis])
                    eq_refl)).
    reflexivity.
Defined.

Lemma plain_line (s : Student) :
  plain_student s ->
  has_char line_feed (student_line s) = false
  /\ is_empty (trim (student_line s)) = false
  /\ forall index, import_line index (student_line s) = inr s.
Proof.
  intros ((Ie & It & Ic & Il) & (Ne & Nt & Nc & Nl) & (Ee & Et & Ec & El)).
  split; [| split].
  - unfold student_line. rewrite has_char_append. cbn [has_char].
    rewrite has_char_append. cbn [has_char]. rewrite Il, Nl, El. reflexivity.
  - destruct (trimmed_head _ Ie It) as (c & rest & E & Hc).
    unfold student_line. rewrite E. cbn [append]. now apply not_blank_with_head.
  - intros index. unfold import_line, student_line. cbv zeta.
    rewrite (split_at_first comma _ _ Ic), (split_at_first comma _ _ Nc),
      (split_without comma _ Ec).
    cbn [map nth]. rewrite It, Nt, Et, Ie, Ne, Ee. cbn [orb]. now destruct s.
Qed.

Lemma plain_file_lines (header : string) (students : list Student) :
  has_char line_feed header = false ->
  Forall plain_student students ->
  split line_feed (students_file header students) = header :: map student_line students.
Proof.
  intros Hheader Hall. revert header Hheader.
  induction Hall as [|s students Hs _ IH]; intros header Hheader; cbn [students_file map].
  - now apply split_without.
  - rewrite (split_at_first line_feed _ _ Hheader). f_equal.
    apply IH. now apply plain_line.
Qed.

(** X22: A file in the format asked for is read back as written: a file of
    ASCII text with a header that is not blank, followed by one line
    [cedula,nombre,correo] for each of one or more students whose fields are
    not empty and have no comma, no line feed and no white space at their
    ends, gives exactly these students, in the order of the lines. *)
Theorem written_students_are_read_back :
  forall (header : string) (students : list Student),
    ascii_only (students_file header students) = true ->
    students <> [] ->
    is_empty (trim header) = false ->
    has_char line_feed header = false ->
    Forall plain_student students ->
    handleFileChange (students_file header students) = inr students.
Proof.
  intros header students _ Hsome Hblank Hheader Hall.
  unfold handleFileChange, import_file_lines. cbv zeta.
  rewrite (plain_file_lines header students Hheader Hall).
  cbn [filter]. rewrite Hblank. cbn [negb].
  assert (Hkeep : filter (fun line => negb (is_empty (trim line))) (map student_line students)
                  = map student_line students).
  { clear Hsome. induction Hall as [|s students Hs _ IH]; [reflexivity |].
    cbn [map filter]. destruct (plain_line s Hs) as (_ & Hb & _).
    now rewrite Hb, IH. }
  rewrite Hkeep. destruct students as [|s students]; [contradiction |].
  cbn [map List.length Nat.leb skipn].
  change (student_line s :: map student_line students)
    with (map student_line (s :: students)).
  generalize 0%nat. clear Hsome Hkeep.
  induction Hall as [|x xs Hx _ IH]; intros index; cbn [map import_lines]; [reflexivity |].
  destruct (plain_line x Hx) as (_ & _ & Hline). now rewrite Hline, IH.
Qed.

Lemma written_students_are_read_back_witness :
  handleFileChange (students_file "cedula,nombre,correo" [Scenario.ana; Scenario.luis])
  = inr [Scenario.ana; Scenario.luis].
Proof.
  apply written_students_are_read_back.
  - reflexivity.
  - discriminate.
  - reflexivity.
  - reflexivity.
  - repeat constructor.
Defined.

(** * Properties in binary64 *)

Set Warnings "-inexact-float".

(** ** Grouping and lookup *)

Lemma pushed_to_its_corte (cortes : B64.ByCorte) (ev : B64.Evaluation) (corte : Corte) :
  B64.bc_get (B64.bc_push cortes ev) corte
  = B64.bc_get cortes corte ++ filter (B64.in_corte corte) [ev].
Proof.
  unfold B64.bc_push, B64.in_corte. cbn [filter].
  destruct (B64.ev_corte ev), corte; cbn; auto using app_nil_r.
Qed.

Lemma all_pushed_to_their_cortes (l : list B64.Evaluation) (cortes : B64.ByCorte)
      (corte : Corte) :
  B64.bc_get (fold_left B64.bc_push l cortes) corte
  = B64.bc_get cortes corte ++ filter (B64.in_corte corte) l.
Proof.
  revert cortes. induction l as [|ev l IH]; intros cortes.
  - cbn. now rewrite app_nil_r.
  - cbn [fold_left]. rewrite IH, pushed_to_its_corte, <- app_assoc.
    f_equal. change (ev :: l) with ([ev] ++ l). now rewrite filter_app.
Qed.

Lemma table_corte_is_sorted_filter localeCompare (evaluations : list B64.Evaluation)
      (corte : Corte) :
  B64.bc_get (B64.evaluationsByCorte localeCompare evaluations) corte
  = JS.sort (B64.by_name localeCompare) (filter (B64.in_corte corte) evaluations).
Proof.
  unfold B64.evaluationsByCorte.
  assert (Hmap : forall f cortes,
             B64.bc_get (B64.bc_map f cortes) corte = f (B64.bc_get cortes corte))
    by (intros; now destruct corte).
  rewrite Hmap, all_pushed_to_their_cortes. now destruct corte.
Qed.

(** With one grade per pair, the lookup of the code finds the score on
    record. *)
Lemma lookup_finds_recorded (grades : list B64.Grade) (studentId evaluationId : string)
      (s : float) :
  NoDup (map B64.grade_key grades) ->
  B64.recorded grades studentId evaluationId s ->
  B64.score_or_zero (B64.getGrade grades studentId evaluationId) = s.
Proof.
  intros Hnd Hrec. unfold B64.getGrade.
  induction grades as [|g grades IH]; cbn [find].
  - destruct Hrec as [(g & [] & _) | [-> _]]. reflexivity.
  - cbn [map] in Hnd. apply NoDup_cons_iff in Hnd. destruct Hnd as [Hnew Hnd].
    destruct (String.eqb (B64.g_studentId g) studentId
              && String.eqb (B64.g_evaluationId g) evaluationId) eqn:E.
    + apply andb_true_iff in E. destruct E as [E1 E2].
      apply String.eqb_eq in E1, E2.
      assert (Hk : B64.grade_key g = (studentId, evaluationId))
        by (unfold B64.grade_key; congruence).
      cbn [B64.score_or_zero].
      destruct Hrec as [(g' & [<- | Hin] & Hk' & Hs) | [-> Hnone]].
      * now rewrite Hs.
      * exfalso. apply Hnew. apply in_map_iff. exists g'. split; [congruence | exact Hin].
      * now rewrite (Hnone g (or_introl eq_refl) Hk).
    + apply IH; [exact Hnd |].
      assert (Hother : B64.grade_key g <> (studentId, evaluationId)).
      { intros Hk. unfold B64.grade_key in Hk. injection Hk as H1 H2.
        rewrite H1, H2, !String.eqb_refl in E. discriminate. }
      destruct Hrec as [(g' & [<- | Hin] & Hk' & Hs) | [-> Hnone]].
      * contradiction.
      * left. now exists g'.
      * right. split; [reflexivity |]. intros g' Hin. apply Hnone. now right.
Qed.

Lemma reduce_is_sum {A : Type} (f g : A -> float) (l : list A) (start : float) :
  (forall x, In x l -> f x = g x) ->
  JS.reduce (fun total x => PrimFloat.add total (f x)) start l
  = fold_left PrimFloat.add (map g l) start.
Proof.
  unfold JS.reduce. revert start.
  induction l as [|x l IH]; intros start Hfg; cbn [fold_left map]; [reflexivity |].
  rewrite (Hfg x (or_introl eq_refl)). apply IH. intros y Hy. apply Hfg. now right.
Qed.

(** ** The weighted sum of a corte *)

(** C4: for every student, corte and snapshot of evaluations and grades
    with one grade per student and evaluation, the weighted corte sum of the
    table, in both variants, is the sum, over the evaluations that belong to
    the corte, of the score on record times percentage over 100, where the
    score of an absent grade or of a grade without score is 0; the sum is
    the binary64 sum from 0 in the order of the names. *)
Theorem weighted_corte_sum_adds_recorded_scores :
  forall localeCompare (evaluations : list B64.Evaluation) (grades : list B64.Grade)
         (studentId : string) (corte : Corte) (score : B64.Evaluation -> float),
    NoDup (map B64.grade_key grades) ->
    (forall ev, In ev evaluations ->
                B64.recorded grades studentId (B64.ev_id ev) (score ev)) ->
    B64.calculateCorteTotal localeCompare evaluations grades studentId corte
    = B64.weightedCorteSum localeCompare score corte evaluations
    /\ B64.calculateWeightedCorteSum localeCompare evaluations grades studentId corte
       = B64.weightedCorteSum localeCompare score corte evaluations.
Proof.
  intros localeCompare evaluations grades studentId corte score Hnd Hrec.
  assert (Hsum :
            (let corteEvals :=
               B64.bc_get (B64.evaluationsByCorte localeCompare evaluations) corte in
             if Nat.eqb (List.length corteEvals) 0 then 0%float
             else JS.reduce
                    (fun total ev =>
                       let grade := B64.getGrade grades studentId (B64.ev_id ev) in
                       let score := B64.score_or_zero grade in
                       PrimFloat.add total
                         (PrimFloat.mul score (PrimFloat.div (B64.ev_percentage ev) 100)))
                    0%float corteEvals)
            = B64.weightedCorteSum localeCompare score corte evaluations).
  { cbv zeta. rewrite table_corte_is_sorted_filter. unfold B64.weightedCorteSum, B64.sum.
    set (l := JS.sort (B64.by_name localeCompare) (filter (B64.in_corte corte) evaluations)).
    assert (Hin : forall ev, In ev l -> In ev evaluations).
    { intros ev Hev. unfold l in Hev.
      apply (Permutation_in ev (Permutation_sym (sort_Permutation _ _))) in Hev.
      now apply filter_In in Hev. }
    destruct (Nat.eqb (List.length l) 0) eqn:E.
    - apply Nat.eqb_eq, length_zero_iff_nil in E. now rewrite E.
    - apply (reduce_is_sum
               (fun ev => PrimFloat.mul
                            (B64.score_or_zero
                               (B64.getGrade grades studentId (B64.ev_id ev)))
                            (PrimFloat.div (B64.ev_percentage ev) 100))).
      intros ev Hev. f_equal. apply lookup_finds_recorded; [exact Hnd |].
      apply Hrec, Hin, Hev. }
  split; exact Hsum.
Qed.

Lemma weighted_corte_sum_adds_recorded_scores_witness :
  B64.calculateCorteTotal Scenario.ascii_order Scenario64.evaluations
                          Scenario64.some_grades "V-1" Corte3
  = B64.weightedCorteSum Scenario.ascii_order Scenario64.some_scores Corte3
                         Scenario64.evaluations
  /\ B64.calculateWeightedCorteSum Scenario.ascii_order Scenario64.evaluations
                                   Scenario64.some_grades "V-1" Corte2
     = 4.5%float.
Proof.
  assert (Hnd : NoDup (map B64.grade_key Scenario64.some_grades))
    by (repeat constructor; cbn; intuition discriminate).
  assert (Hrec : forall ev, In ev Scenario64.evaluations ->
                            B64.recorded Scenario64.some_grades "V-1" (B64.ev_id ev)
                                         (Scenario64.some_scores ev)).
  { intros ev [<- | [<- | [<- | []]]].
    - left. eexists. split; [left; reflexivity | split; reflexivity].
    - right. split; [reflexivity |].
      intros g [<- | [<- | []]] Hk; [discriminate | reflexivity].
    - right. split; [reflexivity |].
      intros g [<- | [<- | []]] Hk; discriminate. }
  split.
  - apply (weighted_corte_sum_adds_recorded_scores
             Scenario.ascii_order Scenario64.evaluations Scenario64.some_grades
             "V-1"%string Corte3 Scenario64.some_scores Hnd Hrec).
  - rewrite (proj2 (weighted_corte_sum_adds_recorded_scores
                      Scenario.ascii_order Scenario64.evaluations Scenario64.some_grades
                      "V-1"%string Corte2 Scenario64.some_scores Hnd Hrec)).
    reflexivity.
Defined.

(** ** The final grade in the table, the export and the general report *)

(** C1: the views do not give one final grade.  For a student with 18 in
    an exam of 25% in corte 2, 18 in a project of 30% and 1 in a workshop of
    10% in corte 3, the table and the export, which add the totals of the
    cortes, give 10 and show 10.00, and the general report, which adds the
    weighted scores of all the evaluations in one sum, gives
    9.999999999999998: with the passing grade 10 the report counts the
    student as failed, and lists the student with 10.00. *)
Theorem final_grade_differs_between_views :
  B64.finalGrade Scenario.ascii_order Scenario64.evaluations Scenario64.grades "V-1"
  = 10%float
  /\ B64.csv_finalGrade Scenario.ascii_order Scenario64.evaluations Scenario64.grades
                        Scenario.ana
     = 10%float
  /\ B64.report_finalGrade Scenario64.evaluations Scenario64.grades Scenario.ana
     = 9.999999999999998%float
  /\ B64.toFixed2 (B64.finalGrade Scenario.ascii_order Scenario64.evaluations
                                  Scenario64.grades "V-1") = "10.00"%string
  /\ B64.passes 10 (B64.report_finalGrade Scenario64.evaluations Scenario64.grades
                                          Scenario.ana) = false
  /\ B64.toFixed2 (B64.report_finalGrade Scenario64.evaluations Scenario64.grades
                                         Scenario.ana) = "10.00"%string.
Proof. vm_compute. repeat split. Qed.

(** ** The normalized grade of a corte *)

(** C2: the views do not give one normalized grade, and the grade is not
    always the quotient of the exact numbers.  For three evaluations of
    corte 3 created in the order exam (15%, score 8), workshop (15%, score
    18), quiz (10%, score 1), the table and the e-mail, which add in the
    order of the names, give 10, and the report, which adds in the order of
    the list, gives 9.999999999999998, below the passing grade.  For a
    student with 10 in both evaluations of a corte, of 15% and 8%, all three
    give 9.999999999999998. *)
Theorem normalized_grade_differs_between_views :
  B64.calculateNormalizedCorteGrade Scenario.ascii_order Scenario64.corte3
                                    Scenario64.corte3_grades "V-1" Corte3
  = 10%float
  /\ B64.email_normalizedGrade Scenario.ascii_order "subject-1" Scenario64.corte3
                               Scenario64.corte3_grades Scenario.ana Corte3
     = 10%float
  /\ B64.report_normalizedScore Scenario64.corte3 Scenario64.corte3_grades
                                Scenario.ana Corte3
     = Some 9.999999999999998%float
  /\ option_map (B64.passes 10)
                (B64.report_normalizedScore Scenario64.corte3 Scenario64.corte3_grades
                                            Scenario.ana Corte3)
     = Some false
  /\ B64.calculateNormalizedCorteGrade Scenario.ascii_order Scenario64.two_tens
                                       Scenario64.two_tens_grades "V-1" Corte1
     = 9.999999999999998%float
  /\ B64.email_normalizedGrade Scenario.ascii_order "subject-1" Scenario64.two_tens
                               Scenario64.two_tens_grades Scenario.ana Corte1
     = 9.999999999999998%float
  /\ B64.report_normalizedScore Scenario64.two_tens Scenario64.two_tens_grades
                                Scenario.ana Corte1
     = Some 9.999999999999998%float.
Proof. vm_compute. repeat split. Qed.

(** ** Validation of a proposed evaluation *)

Lemma skipping_is_filtering (skip : B64.Evaluation -> bool) (l : list B64.Evaluation)
      (start : float) :
  fold_left (fun acc ev => if skip ev then acc
                           else PrimFloat.add acc (B64.ev_percentage ev)) l start
  = fold_left (fun acc ev => PrimFloat.add acc (B64.ev_percentage ev))
              (filter (fun ev => negb (skip ev)) l) start.
Proof.
  revert start. induction l as [|ev l IH]; intros start; cbn [fold_left filter];
    [reflexivity |].
  destruct (skip ev); cbn [negb fold_left]; apply IH.
Qed.

Lemma filters_commute {A : Type} (p q : A -> bool) (l : list A) :
  filter p (filter q l) = filter q (filter p l).
Proof.
  induction l as [|x l IH]; cbn [filter]; [reflexivity |].
  destruct (p x) eqn:Ep, (q x) eqn:Eq; cbn [filter]; rewrite ?Ep, ?Eq, IH; reflexivity.
Qed.

(** The sum of the corte check is the sum over the other evaluations of
    the corte. *)
Lemma percentageForThisCorte_others subject_id (evaluations : list B64.Evaluation)
      (editing : option B64.Evaluation) (corte : Corte) :
  B64.percentageForThisCorte subject_id evaluations editing corte
  = B64.percentageOfOthers
      editing
      (filter (B64.in_corte corte) (filter (B64.in_subject subject_id) evaluations)).
Proof.
  unfold B64.percentageForThisCorte, B64.percentageOfOthers, B64.sum,
    B64.subjectEvaluations, JS.reduce.
  change (fun ev => corte_eqb (B64.ev_corte ev) corte) with (B64.in_corte corte).
  change (fun ev => String.eqb (B64.ev_subjectId ev) subject_id)
    with (B64.in_subject subject_id).
  generalize (filter (B64.in_corte corte) (filter (B64.in_subject subject_id) evaluations)).
  intros l.
  transitivity (fold_left (fun acc ev => if B64.is_edited editing ev then acc
                                         else PrimFloat.add acc (B64.ev_percentage ev))
                          l 0%float).
  - now destruct editing.
  - rewrite skipping_is_filtering.
    apply (reduce_is_sum B64.ev_percentage). reflexivity.
Qed.

(** Leaving the edited evaluation out of the sum is removing it from the
    list. *)
Lemma others_of_the_list_without_edited subject_id (evaluations : list B64.Evaluation)
      (edited : B64.Evaluation) (corte : Corte) :
  B64.percentageForThisCorte subject_id evaluations (Some edited) corte
  = B64.percentageForThisCorte
      subject_id
      (filter (fun ev => negb (B64.is_edited (Some edited) ev)) evaluations)
      None corte.
Proof.
  rewrite !percentageForThisCorte_others. unfold B64.percentageOfOthers.
  assert (Hall : forall l : list B64.Evaluation,
             filter (fun ev => negb (B64.is_edited None ev)) l = l).
  { induction l as [|ev l IH]; [reflexivity |].
    change (ev :: filter (fun ev => negb (B64.is_edited None ev)) l = ev :: l).
    now rewrite IH. }
  rewrite Hall. do 2 f_equal.
  rewrite (filters_commute _ (B64.in_corte corte)). f_equal.
  apply filters_commute.
Qed.

(** C3 (amended): with a single evaluation at 20% in corte 1, editing it
    to 25% is accepted and editing it to 35% fails with the corte-budget
    error, which reports 30.00% available.  More generally, the corte check
    of an edit leaves the edited evaluation out: the sum it compares is the
    sum of the percentages of the other evaluations of the corte, and the
    check fails, with the same numbers in the error, exactly when it fails
    for a new evaluation on the list from which the edited one is removed. *)
Theorem corte_check_leaves_out_the_edited_evaluation :
  forall subject_id (evaluations : list B64.Evaluation) (edited : B64.Evaluation)
         (newEval : B64.NewEval),
    let others := filter (fun ev => negb (B64.is_edited (Some edited) ev)) evaluations in
    B64.percentageForThisCorte subject_id evaluations (Some edited) (B64.ne_corte newEval)
    = B64.percentageOfOthers
        (Some edited)
        (filter (B64.in_corte (B64.ne_corte newEval))
                (filter (B64.in_subject subject_id) evaluations))
    /\ (forall corte maxPercentageForCorte available,
           B64.save_checks subject_id evaluations (Some edited) newEval
           = inl (B64.CorteBudgetExceeded corte maxPercentageForCorte available)
           <-> B64.save_checks subject_id others None newEval
               = inl (B64.CorteBudgetExceeded corte maxPercentageForCorte available))
    /\ B64.save_checks "subject-1" [Scenario64.taller] (Some Scenario64.taller)
                       (B64.mkNewEval "Taller" 25 Corte1)
       = inr 25%float
    /\ B64.save_checks "subject-1" [Scenario64.taller] (Some Scenario64.taller)
                       (B64.mkNewEval "Taller" 35 Corte1)
       = inl (B64.CorteBudgetExceeded Corte1 30 30)
    /\ B64.save_message Scenario64.decimal (B64.CorteBudgetExceeded Corte1 30 30)
       = "El porcentaje para el Corte 1 no puede exceder 30%. Disponible: 30.00%"%string.
Proof.
  intros subject_id evaluations edited newEval others.
  pose proof (others_of_the_list_without_edited subject_id evaluations edited
                                                (B64.ne_corte newEval)) as Hsum.
  fold others in Hsum.
  split; [| split; [| split; [| split]]]; try reflexivity.
  - apply percentageForThisCorte_others.
  - intros corte maxPercentageForCorte available.
    unfold B64.save_checks. cbv zeta. rewrite Hsum.
    destruct (is_empty (trim (B64.ne_name newEval))
              || B64.isNaN (B64.ne_percentage newEval)); [split; discriminate |].
    destruct (PrimFloat.leb (B64.ne_percentage newEval) 0); [split; discriminate |].
    destruct (PrimFloat.ltb _ (PrimFloat.add (B64.percentageForThisCorte _ _ _ _) _));
      [reflexivity |].
    destruct (PrimFloat.ltb 100 (PrimFloat.add
                (B64.currentTotalWithoutEdited subject_id evaluations (Some edited)) _));
      destruct (PrimFloat.ltb 100 (PrimFloat.add
                  (B64.currentTotalWithoutEdited subject_id others None) _));
      split; discriminate.
Qed.

Lemma corte_check_leaves_out_the_edited_evaluation_witness :
  B64.save_checks "subject-1" [Scenario64.ensayo; Scenario64.debate] None
                  (Scenario64.form_of Scenario64.lectura)
  = inl (B64.CorteBudgetExceeded Corte1 30 (30 - (14.8 + 7.9))%float).
Proof.
  apply (proj1 (proj2 (corte_check_leaves_out_the_edited_evaluation
                         "subject-1"%string
                         [Scenario64.lectura; Scenario64.ensayo; Scenario64.debate]
                         Scenario64.lectura (Scenario64.form_of Scenario64.lectura)))).
  vm_compute. reflexivity.
Defined.

(** C3 as stated fails.  Editing the evaluation of 20% to 35% reports
    30.00% available, not 10%.  And an edit that keeps the percentage can
    fail a budget check: an evaluation of 50% in corte 1, which the earlier
    subject view accepted, is over the cap of 30%; and of three evaluations
    of corte 1 that were accepted one after the other, of 7.3%, 14.8% and
    7.9%, the first cannot be saved unchanged, since 14.8 + 7.9 + 7.3 is
    30.000000000000004 in binary64. *)
Lemma edit_reports_30_and_unchanged_edit_is_refused :
  B64.save_message Scenario64.decimal
    match B64.save_checks "subject-1" [Scenario64.taller] (Some Scenario64.taller)
                          (B64.mkNewEval "Taller" 35 Corte1)
    with inl e => e | inr _ => B64.MissingField end
  = "El porcentaje para el Corte 1 no puede exceder 30%. Disponible: 30.00%"%string
  /\ B64.save_checks "subject-1" [Scenario64.proyecto] (Some Scenario64.proyecto)
                     (Scenario64.form_of Scenario64.proyecto)
     = inl (B64.CorteBudgetExceeded Corte1 30 30)
  /\ B64.save_checks "subject-1" [] None (Scenario64.form_of Scenario64.lectura)
     = inr 7.3%float
  /\ B64.save_checks "subject-1" [Scenario64.lectura] None
                     (Scenario64.form_of Scenario64.ensayo)
     = inr 14.8%float
  /\ B64.save_checks "subject-1" [Scenario64.lectura; Scenario64.ensayo] None
                     (Scenario64.form_of Scenario64.debate)
     = inr 7.9%float
  /\ B64.save_checks "subject-1"
                     [Scenario64.lectura; Scenario64.ensayo; Scenario64.debate]
                     (Some Scenario64.lectura) (Scenario64.form_of Scenario64.lectura)
     = inl (B64.CorteBudgetExceeded Corte1 30 (30 - (14.8 + 7.9))%float)
  /\ (14.8 + 7.9 + 7.3)%float = 30.000000000000004%float.
Proof. vm_compute. repeat split. Qed.



